(** * PIKUDO: room lifecycle and challenge-media upload handlers

    A shallow embedding of three request handlers of the backend:

      - [POST_end]      src/app/api/rooms/end/route.ts
      - [POST_commit]   the upload-commit route  (unnamed/part_000)
      - [POST_reserve]  the upload-reserve route (unnamed/part_001)

    Each handler is an [async] function that talks to a relational store
    (Supabase tables) and to an object store.  The embedding threads the
    tables through a small state monad with early return, and records every
    call made to the store or to the storage interface in a call log, so
    that statements such as "rejected before any lookup" can be read off
    the log. *)

From Stdlib Require Import String Ascii List Bool PeanoNat.
Import ListNotations.
Local Open Scope string_scope.
Local Open Scope list_scope.

(** ** JavaScript values and strings *)

(** The part of a JSON value the handlers can tell apart: they only test
    [typeof v === "string"] and hand the value to a validator. *)
Inductive JsValue : Type :=
| JUndefined
| JNull
| JBool (b : bool)
| JNumber (n : nat)
| JString (s : string)
| JComposite.

(** [await req.json().catch(() => null)]: [None] when the body does not
    parse (or is not an object), otherwise the object's own properties. *)
Definition Body : Type := option (list (string * JsValue)).

(** [body?.key] *)
Definition member (body : Body) (key : string) : JsValue :=
  match body with
  | None => JUndefined
  | Some props =>
      match find (fun kv => String.eqb (fst kv) key) props with
      | Some kv => snd kv
      | None => JUndefined
      end
  end.

(** [typeof v === "string" ? v : ""] *)
Definition stringOrEmpty (v : JsValue) : string :=
  match v with
  | JString s => s
  | _ => ""
  end.

(** [s.startsWith(p)] *)
Definition startsWith (s p : string) : bool := prefix p s.

(** [!s] for a string: only the empty string is falsy. *)
Definition isEmpty (s : string) : bool := String.eqb s "".

(** [s.split(sep)] for a one-character separator. *)
Fixpoint split (sep : ascii) (s : string) : list string :=
  match s with
  | EmptyString => [EmptyString]
  | String c rest =>
      if Ascii.eqb c sep then EmptyString :: split sep rest
      else match split sep rest with
           | part :: parts => String c part :: parts
           | [] => [String c EmptyString]
           end
  end.

(** A string of the model is a JavaScript string in its UTF-8 encoding, one
    [ascii] for each byte: a character of the ASCII range is one byte, and
    ["/"], the only separator the handlers look for, never occurs inside
    the encoding of another character. *)

(** The characters [String.prototype.trim] strips, white space and line
    terminators, each by the bytes of its UTF-8 encoding. *)
Definition whiteSpace : list (list nat) :=
  [ [9];              (* U+0009 CHARACTER TABULATION *)
    [10];             (* U+000A LINE FEED *)
    [11];             (* U+000B LINE TABULATION *)
    [12];             (* U+000C FORM FEED *)
    [13];             (* U+000D CARRIAGE RETURN *)
    [32];             (* U+0020 SPACE *)
    [194; 160];       (* U+00A0 NO-BREAK SPACE *)
    [225; 154; 128];  (* U+1680 OGHAM SPACE MARK *)
    [226; 128; 128];  (* U+2000 EN QUAD *)
    [226; 128; 129];  (* U+2001 EM QUAD *)
    [226; 128; 130];  (* U+2002 EN SPACE *)
    [226; 128; 131];  (* U+2003 EM SPACE *)
    [226; 128; 132];  (* U+2004 THREE-PER-EM SPACE *)
    [226; 128; 133];  (* U+2005 FOUR-PER-EM SPACE *)
    [226; 128; 134];  (* U+2006 SIX-PER-EM SPACE *)
    [226; 128; 135];  (* U+2007 FIGURE SPACE *)
    [226; 128; 136];  (* U+2008 PUNCTUATION SPACE *)
    [226; 128; 137];  (* U+2009 THIN SPACE *)
    [226; 128; 138];  (* U+200A HAIR SPACE *)
    [226; 128; 168];  (* U+2028 LINE SEPARATOR *)
    [226; 128; 169];  (* U+2029 PARAGRAPH SEPARATOR *)
    [226; 128; 175];  (* U+202F NARROW NO-BREAK SPACE *)
    [226; 129; 159];  (* U+205F MEDIUM MATHEMATICAL SPACE *)
    [227; 128; 128];  (* U+3000 IDEOGRAPHIC SPACE *)
    [239; 187; 191]   (* U+FEFF ZERO WIDTH NO-BREAK SPACE *) ].

Fixpoint sameBytes (xs ys : list nat) : bool :=
  match xs, ys with
  | [], [] => true
  | x :: xs', y :: ys' => Nat.eqb x y && sameBytes xs' ys'
  | _, _ => false
  end.

(** Are these bytes, in this order, one of the characters [trim] strips? *)
Definition isWhiteSpace (bytes : list ascii) : bool :=
  existsb (sameBytes (map nat_of_ascii bytes)) whiteSpace.

(** Drops the white space a string begins with.  [order] puts the bytes read
    so far in the order of the text: as they are when the string is read
    forwards, reversed when it is read from its end. *)
Fixpoint dropWhiteSpace (order : list ascii -> list ascii) (s : string) : string :=
  match s with
  | EmptyString => EmptyString
  | String a rest =>
      if isWhiteSpace (order [a]) then dropWhiteSpace order rest
      else match rest with
           | EmptyString => s
           | String b rest2 =>
               if isWhiteSpace (order [a; b]) then dropWhiteSpace order rest2
               else match rest2 with
                    | EmptyString => s
                    | String c rest3 =>
                        if isWhiteSpace (order [a; b; c])
                        then dropWhiteSpace order rest3
                        else s
                    end
           end
  end.

(** [s.trimStart()] *)
Definition trimStart (s : string) : string := dropWhiteSpace (fun bytes => bytes) s.

Definition reverse (s : string) : string :=
  string_of_list_ascii (rev (list_ascii_of_string s)).

(** [s.trimEnd()]: the same from the end; a character of several bytes ends
    with its bytes and with no others, so reading backwards finds it. *)
Definition trimEnd (s : string) : string :=
  reverse (dropWhiteSpace (@rev ascii) (reverse s)).

(** [s.trim()] *)
Definition trim (s : string) : string := trimEnd (trimStart s).

(** ** Rows of the store *)

Inductive RoomStatus : Type := lobby | active | ended.

Inductive MediaType : Type := image | video.

Module Session.
Record t : Type := mk { session_token : string; player_id : string }.
End Session.

Module Player.
Record t : Type := mk { id : string; room_id : string }.
End Player.

Module Room.
Record t : Type := mk {
  id : string;
  code : string;
  status : RoomStatus;
  ends_at : option string
}.
End Room.

Module Member.
Record t : Type := mk { room_id : string; player_id : string; role : string }.
End Member.

Module Challenge.
Record t : Type := mk {
  id : string;
  player_id : string;
  block_start : string;
  media_url : option string;
  media_type : option MediaType;
  media_mime : option string;
  media_uploaded_at : option string
}.
End Challenge.

(** The tables the handlers read and write.  Lists, because [maybeSingle]
    tells zero, one and several matching rows apart. *)
Record World : Type := mkWorld {
  player_sessions : list Session.t;
  players : list Player.t;
  rooms : list Room.t;
  room_members : list Member.t;
  player_challenges : list Challenge.t
}.

(** ** Requests and responses *)

(** A request, as the handlers see it: what [readSessionTokenFromRequest]
    returns for it ([None] for [null]) and its JSON body. *)
Record Request : Type := mkRequest {
  sessionToken : option string;
  json : Body
}.

Inductive Payload : Type :=
| Failure (error : string) (hint : option string)
| Ended (endedAt : string)
| Media (url mime : string) (type : MediaType)
| Upload (path token signedUrl : string).

(** [NextResponse.json(payload, { status })] *)
Record Response : Type := mkResponse { status : nat; payload : Payload }.

Definition fail (code : nat) (error : string) : Response :=
  mkResponse code (Failure error None).

Definition success (p : Payload) : Response := mkResponse 200 p.

Definition UNAUTHORIZED : Response := fail 401 "UNAUTHORIZED".
Definition NOT_ALLOWED : Response := fail 403 "NOT_ALLOWED".
Definition ROOM_NOT_FOUND : Response := fail 404 "ROOM_NOT_FOUND".
Definition INVALID_ROOM_CODE : Response := fail 400 "INVALID_ROOM_CODE".
Definition INVALID_PLAYER_CHALLENGE_ID : Response := fail 400 "INVALID_PLAYER_CHALLENGE_ID".
Definition INVALID_PATH : Response := fail 400 "INVALID_PATH".
Definition INVALID_MIME : Response := fail 400 "INVALID_MIME".
Definition INTERNAL (message : string) : Response := fail 500 message.

(** [ok] flag of the JSON payload. *)
Definition ok (r : Response) : bool :=
  match payload r with
  | Failure _ _ => false
  | _ => true
  end.

(** What a handler invocation ends in: a response, or an exception that
    leaves the handler. *)
Inductive Outcome : Type :=
| Responded (r : Response)
| Threw (e : string).

(** ** Calls to the external collaborators *)

Inductive Call : Type :=
| SelectSession (session_token : string)
| SelectPlayer (id : string)
| SelectRoom (code : string)
| SelectMember (room_id player_id : string)
| SelectChallenge (id : string)
| UpdateRoom (id : string) (status : RoomStatus) (ends_at : string)
| UpdateChallenge (id : string) (media_url : string) (media_type : MediaType)
                  (media_mime : string) (media_uploaded_at : string)
| CreateSignedUploadUrl (bucket path : string) (upsert : bool)
| GetPublicUrl (bucket path : string).

Definition isStoreCall (c : Call) : bool :=
  match c with
  | CreateSignedUploadUrl _ _ _ | GetPublicUrl _ _ => false
  | _ => true
  end.

Definition isStorageCall (c : Call) : bool := negb (isStoreCall c).

(** [{ data, error }] of a store query. *)
Inductive DbResult (A : Type) : Type :=
| DbData (data : option A)
| DbError (message : string).
Arguments DbData {A} data.
Arguments DbError {A} message.

(** [.maybeSingle()]: no row is [data = null], one row is that row, several
    rows are an error. *)
Definition maybeSingle {A : Type} (rows : list A) : DbResult A :=
  match rows with
  | [] => DbData None
  | [row] => DbData (Some row)
  | _ => DbError "JSON object requested, multiple (or no) rows returned"
  end.

(** [{ data, error }] of [createSignedUploadUrl]. *)
Inductive SignResult : Type :=
| Signed (path token signedUrl : string)
| SignError (message : string).

(** Everything the handlers take from outside the three source files: the
    validators of [@/lib/validators] (type guards narrowing [unknown] to
    [string], hence functions on strings here), the clock, [Date] parsing,
    the storage client, and failures of store calls. *)
Record Env : Type := mkEnv {
  validateUuid : string -> bool;
  validateRoomCode : string -> bool;
  nowIso : string;
  toISOString : string -> option string;
  getPublicUrl : string -> string -> string;
  createSignedUploadUrl : string -> string -> bool -> SignResult;
  dbFault : Call -> option string
}.

(** ** The handler monad: tables, call log, early return *)

Inductive Step (A : Type) : Type :=
| Continue (a : A)
| Return (r : Response)
| Raise (e : string).
Arguments Continue {A} a.
Arguments Return {A} r.
Arguments Raise {A} e.

Definition Handler (A : Type) : Type :=
  World -> list Call -> Step A * World * list Call.

Definition ret {A : Type} (a : A) : Handler A :=
  fun w log => (Continue a, w, log).

Definition bind {A B : Type} (m : Handler A) (k : A -> Handler B) : Handler B :=
  fun w log =>
    match m w log with
    | (Continue a, w', log') => k a w' log'
    | (Return r, w', log') => (Return r, w', log')
    | (Raise e, w', log') => (Raise e, w', log')
    end.

Declare Scope handler_scope.
Delimit Scope handler_scope with handler.
Notation "x <- m ;; k" := (bind m (fun x => k))
  (at level 100, m at next level, right associativity) : handler_scope.
Notation "m ;; k" := (bind m (fun _ => k))
  (at level 100, right associativity) : handler_scope.
Local Open Scope handler_scope.

(** [return NextResponse.json(...)] *)
Definition respond {A : Type} (r : Response) : Handler A :=
  fun w log => (Return r, w, log).

(** [throw e] *)
Definition raise {A : Type} (e : string) : Handler A :=
  fun w log => (Raise e, w, log).

(** [if (cond) return r;] *)
Definition returnIf (cond : bool) (r : Response) : Handler unit :=
  if cond then respond r else ret tt.

(** Narrowing: go on with the value when there is one, return [r] otherwise. *)
Definition orReturn {A : Type} (o : option A) (r : Response) : Handler A :=
  match o with
  | Some a => ret a
  | None => respond r
  end.

Definition call (c : Call) : Handler unit :=
  fun w log => (Continue tt, w, log ++ [c]).

(** Runs a handler on a store, from an empty call log. *)
Definition run (h : Handler Response) (w : World) : Outcome * World * list Call :=
  match h w [] with
  | (Continue r, w', log) => (Responded r, w', log)
  | (Return r, w', log) => (Responded r, w', log)
  | (Raise e, w', log) => (Threw e, w', log)
  end.

Definition response (o : Outcome * World * list Call) : Outcome := fst (fst o).
Definition world (o : Outcome * World * list Call) : World := snd (fst o).
Definition calls (o : Outcome * World * list Call) : list Call := snd o.

(** ** The handlers *)

(** [const BUCKET = "retos";] *)
Definition BUCKET : string := "retos".

(** [mime.startsWith("video/") ? "video" : "image"] *)
Definition mediaTypeFromMime (mime : string) : MediaType :=
  if startsWith mime "video/" then video else image.

(** [part ? `.${part}` : fallback], where [part] is [mime.split("/")[1]]. *)
Definition dotOr (part : option string) (fallback : string) : string :=
  match part with
  | Some p => if isEmpty p then fallback else "." ++ p
  | None => fallback
  end.

Definition extFromMime (mime : string) : string :=
  if startsWith mime "image/" then dotOr (nth_error (split "/" mime) 1) ".jpg"
  else if startsWith mime "video/" then dotOr (nth_error (split "/" mime) 1) ".mp4"
  else "".

(** [!mime || (!mime.startsWith("image/") && !mime.startsWith("video/"))] *)
Definition badMime (mime : string) : bool :=
  isEmpty mime || (negb (startsWith mime "image/") && negb (startsWith mime "video/")).

(** [`${player_id}/${blockStartIso}/${id}${extFromMime(mime)}`] *)
Definition storagePath (player_id blockStartIso id mime : string) : string :=
  player_id ++ "/" ++ blockStartIso ++ "/" ++ id ++ extFromMime mime.

(** [!sessionToken] is false: the token is a non-empty string. *)
Definition presentToken (t : option string) : option string :=
  match t with
  | Some s => if isEmpty s then None else Some s
  | None => None
  end.

(** A type guard of [@/lib/validators] applied to an [unknown] value. *)
Definition narrow (valid : string -> bool) (v : JsValue) : option string :=
  match v with
  | JString s => if valid s then Some s else None
  | _ => None
  end.

(** [.update({ status, ends_at })] on one row of [rooms]. *)
Definition setEnded (st : RoomStatus) (at_ : string) (r : Room.t) : Room.t :=
  Room.mk (Room.id r) (Room.code r) st (Some at_).

(** [.update({ media_url, media_type, media_mime, media_uploaded_at })] on
    one row of [player_challenges]. *)
Definition setMedia (url : string) (ty : MediaType) (mime at_ : string)
    (pc : Challenge.t) : Challenge.t :=
  Challenge.mk (Challenge.id pc) (Challenge.player_id pc) (Challenge.block_start pc)
               (Some url) (Some ty) (Some mime) (Some at_).

(** [.update(fields).eq("id", id)]: every row with that id, and no other. *)
Definition updateWhere {A : Type} (matches : A -> bool) (f : A -> A)
    (rows : list A) : list A :=
  map (fun row => if matches row then f row else row) rows.

Definition withRooms (w : World) (rs : list Room.t) : World :=
  mkWorld (player_sessions w) (players w) rs (room_members w) (player_challenges w).

Definition withChallenges (w : World) (pcs : list Challenge.t) : World :=
  mkWorld (player_sessions w) (players w) (rooms w) (room_members w) pcs.

Section Handlers.

Variable env : Env.

(** The answer of the store to a [maybeSingle] query: the failure of the
    call, if it fails, and otherwise what the matching rows give. *)
Definition answer {A : Type} (c : Call) (rows : list A) : DbResult A :=
  match dbFault env c with
  | Some message => DbError message
  | None => maybeSingle rows
  end.

Definition lookupSession (w : World) (token : string) : DbResult Session.t :=
  answer (SelectSession token)
    (filter (fun s => Session.session_token s =? token) (player_sessions w)).

Definition lookupPlayer (w : World) (id : string) : DbResult Player.t :=
  answer (SelectPlayer id) (filter (fun p => Player.id p =? id) (players w)).

Definition lookupRoom (w : World) (code : string) : DbResult Room.t :=
  answer (SelectRoom code) (filter (fun r => Room.code r =? code) (rooms w)).

Definition lookupMember (w : World) (room_id player_id : string) : DbResult Member.t :=
  answer (SelectMember room_id player_id)
    (filter (fun m => (Member.room_id m =? room_id) && (Member.player_id m =? player_id))
            (room_members w)).

Definition lookupChallenge (w : World) (id : string) : DbResult Challenge.t :=
  answer (SelectChallenge id)
    (filter (fun pc => Challenge.id pc =? id) (player_challenges w)).

(** [await supabase.from(table).select(...).eq(...).maybeSingle()] *)
Definition select {A : Type} (c : Call) (lookup : World -> DbResult A)
    : Handler (DbResult A) :=
  fun w log => (Continue (lookup w), w, log ++ [c]).

(** [await supabase.from(table).update(fields).eq("id", id)], giving the
    [error] of the call. *)
Definition update (c : Call) (apply : World -> World) : Handler (option string) :=
  fun w log =>
    match dbFault env c with
    | Some message => (Continue (Some message), w, log ++ [c])
    | None => (Continue None, apply w, log ++ [c])
    end.

(** [if (error) return 500; if (!data) return missing;] *)
Definition rowOr {A : Type} (r : DbResult A) (missing : Response) : Handler A :=
  match r with
  | DbError message => respond (INTERNAL message)
  | DbData None => respond missing
  | DbData (Some row) => ret row
  end.

(** [data] alone, for a query whose [error] is not looked at. *)
Definition dataOf {A : Type} (r : DbResult A) : option A :=
  match r with
  | DbData data => data
  | DbError _ => None
  end.

(** [member?.role ?? ""] *)
Definition roleOf (m : option Member.t) : string :=
  match m with
  | Some row => Member.role row
  | None => ""
  end.

Definition endRoom (id at_ : string) (w : World) : World :=
  withRooms w (updateWhere (fun r => Room.id r =? id) (setEnded ended at_) (rooms w)).

Definition recordMedia (id url : string) (ty : MediaType) (mime at_ : string)
    (w : World) : World :=
  withChallenges w
    (updateWhere (fun pc => Challenge.id pc =? id) (setMedia url ty mime at_)
                 (player_challenges w)).

(** src/app/api/rooms/end/route.ts, [POST] *)
Definition POST_end (req : Request) : Handler Response :=
  token <- orReturn (presentToken (sessionToken req)) UNAUTHORIZED ;;
  code <- orReturn (narrow (validateRoomCode env) (member (json req) "code"))
                   INVALID_ROOM_CODE ;;
  session <- select (SelectSession token) (fun w => lookupSession w token) ;;
  session <- rowOr session UNAUTHORIZED ;;
  player <- select (SelectPlayer (Session.player_id session))
                   (fun w => lookupPlayer w (Session.player_id session)) ;;
  player <- rowOr player UNAUTHORIZED ;;
  room <- select (SelectRoom code) (fun w => lookupRoom w code) ;;
  room <- rowOr room ROOM_NOT_FOUND ;;
  returnIf (negb (Room.id room =? Player.room_id player)) NOT_ALLOWED ;;
  membership <- select (SelectMember (Room.id room) (Player.id player))
                       (fun w => lookupMember w (Room.id room) (Player.id player)) ;;
  returnIf (negb (roleOf (dataOf membership) =? "owner")) NOT_ALLOWED ;;
  let nowIso := nowIso env in
  updateError <- update (UpdateRoom (Room.id room) ended nowIso)
                        (endRoom (Room.id room) nowIso) ;;
  match updateError with
  | Some message => respond (INTERNAL message)
  | None => ret (success (Ended nowIso))
  end.

(** unnamed/part_000 (upload commit), [POST] *)
Definition POST_commit (req : Request) : Handler Response :=
  token <- orReturn (presentToken (sessionToken req)) UNAUTHORIZED ;;
  let path := stringOrEmpty (member (json req) "path") in
  let mime := stringOrEmpty (member (json req) "mime") in
  playerChallengeId <-
    orReturn (narrow (validateUuid env) (member (json req) "playerChallengeId"))
             INVALID_PLAYER_CHALLENGE_ID ;;
  returnIf (isEmpty path) INVALID_PATH ;;
  returnIf (badMime mime) INVALID_MIME ;;
  session <- select (SelectSession token) (fun w => lookupSession w token) ;;
  session <- rowOr session UNAUTHORIZED ;;
  pc <- select (SelectChallenge (trim playerChallengeId))
               (fun w => lookupChallenge w (trim playerChallengeId)) ;;
  pc <- rowOr pc NOT_ALLOWED ;;
  returnIf (negb (Challenge.player_id pc =? Session.player_id session)) NOT_ALLOWED ;;
  returnIf (negb (startsWith path (Session.player_id session ++ "/"))) NOT_ALLOWED ;;
  call (GetPublicUrl BUCKET path) ;;
  let publicUrl := getPublicUrl env BUCKET path in
  let mediaType := mediaTypeFromMime mime in
  let at_ := nowIso env in
  updateError <- update (UpdateChallenge (Challenge.id pc) publicUrl mediaType mime at_)
                        (recordMedia (Challenge.id pc) publicUrl mediaType mime at_) ;;
  match updateError with
  | Some message => respond (INTERNAL message)
  | None => ret (success (Media publicUrl mime mediaType))
  end.

(** [await supabase.storage.from(bucket).createSignedUploadUrl(path, { upsert })] *)
Definition sign (bucket path : string) (upsert : bool) : Handler SignResult :=
  fun w log => (Continue (createSignedUploadUrl env bucket path upsert), w,
                log ++ [CreateSignedUploadUrl bucket path upsert]).

(** [new Date(s).toISOString()], which throws on a string that is no date. *)
Definition isoOf (s : string) : Handler string :=
  match toISOString env s with
  | Some iso => ret iso
  | None => raise "RangeError: Invalid time value"
  end.

Definition bucketHint : string := "Crea el bucket 'retos' en Supabase Storage.".

(** unnamed/part_001 (upload reserve), [POST] *)
Definition POST_reserve (req : Request) : Handler Response :=
  token <- orReturn (presentToken (sessionToken req)) UNAUTHORIZED ;;
  let mime := stringOrEmpty (member (json req) "mime") in
  playerChallengeId <-
    orReturn (narrow (validateUuid env) (member (json req) "playerChallengeId"))
             INVALID_PLAYER_CHALLENGE_ID ;;
  returnIf (badMime mime) INVALID_MIME ;;
  session <- select (SelectSession token) (fun w => lookupSession w token) ;;
  session <- rowOr session UNAUTHORIZED ;;
  pc <- select (SelectChallenge (trim playerChallengeId))
               (fun w => lookupChallenge w (trim playerChallengeId)) ;;
  pc <- rowOr pc NOT_ALLOWED ;;
  returnIf (negb (Challenge.player_id pc =? Session.player_id session)) NOT_ALLOWED ;;
  blockStartIso <- isoOf (Challenge.block_start pc) ;;
  let path := storagePath (Session.player_id session) blockStartIso (Challenge.id pc) mime in
  signed <- sign BUCKET path true ;;
  match signed with
  | SignError message => respond (mkResponse 500 (Failure message (Some bucketHint)))
  | Signed p t u => ret (success (Upload p t u))
  end.

End Handlers.

(** ** A sample deployment, for concrete runs *)

Module Sample.

Definition isHexDigit (c : ascii) : bool :=
  let n := nat_of_ascii c in
  (Nat.leb 48 n && Nat.leb n 57) || (Nat.leb 97 n && Nat.leb n 102)
  || (Nat.leb 65 n && Nat.leb n 70).

Definition isAlphaNum (c : ascii) : bool :=
  let n := nat_of_ascii c in
  (Nat.leb 48 n && Nat.leb n 57) || (Nat.leb 97 n && Nat.leb n 122)
  || (Nat.leb 65 n && Nat.leb n 90).

(** Does [s] follow [shape], where ["x"] stands for a hexadecimal digit and
    every other character for itself? *)
Fixpoint follows (shape s : string) : bool :=
  match shape, s with
  | EmptyString, EmptyString => true
  | String p shape', String c s' =>
      (if Ascii.eqb p "x" then isHexDigit c else Ascii.eqb p c) && follows shape' s'
  | _, _ => false
  end.

(** Modelled from the spec: [validateUuid] of [@/lib/validators] is not
    among the source files; the spec only says that an id of a bad format
    is rejected as malformed input.  This one accepts the canonical
    8-4-4-4-12 hexadecimal form, white space around it aside (the handlers
    trim the id after validating it). *)
Definition validateUuid (s : string) : bool :=
  follows "xxxxxxxx-xxxx-xxxx-xxxx-xxxxxxxxxxxx" (trim s).

(** Modelled from the spec: [validateRoomCode] of [@/lib/validators] is not
    among the source files; the spec calls the code a short human-entered
    identifier and rejects a bad one as malformed input.  This one accepts
    four to eight letters and digits. *)
Definition validateRoomCode (s : string) : bool :=
  Nat.leb 4 (String.length s) && Nat.leb (String.length s) 8
  && forallb isAlphaNum (list_ascii_of_string s).

(** A clock reading, [Date] parsing for the timestamps of the sample
    store, and a storage client that signs every path. *)
Definition envAt (now : string) : Env :=
  mkEnv validateUuid validateRoomCode
    now
    (fun s =>
       if s =? "2025-03-01T18:00:00+00:00" then Some "2025-03-01T18:00:00.000Z"
       else if s =? "2025-03-01T18:00:00.000Z" then Some s
       else None)
    (fun bucket path =>
       ("https://project.supabase.co/storage/v1/object/public/" ++ bucket ++ "/" ++ path)%string)
    (fun bucket path upsert =>
       Signed path "signed-token"
         ("https://project.supabase.co/storage/v1/object/upload/sign/"
          ++ bucket ++ "/" ++ path ++ "?token=signed-token")%string)
    (fun _ => None).

Definition env : Env := envAt "2025-03-01T18:30:00.000Z".

Definition alice : string := "a1a1a1a1-0000-4000-8000-000000000001".
Definition bob : string := "b2b2b2b2-0000-4000-8000-000000000002".
Definition carol : string := "c3c3c3c3-0000-4000-8000-000000000003".

Definition challengeA : string := "11111111-1111-4111-8111-111111111111".
Definition challengeB : string := "22222222-2222-4222-8222-222222222222".

Definition aliceSession : Session.t := Session.mk "token-alice" alice.
Definition bobSession : Session.t := Session.mk "token-bob" bob.
Definition carolSession : Session.t := Session.mk "token-carol" carol.

Definition alicePlayer : Player.t := Player.mk alice "room-1".
Definition bobPlayer : Player.t := Player.mk bob "room-1".
Definition carolPlayer : Player.t := Player.mk carol "room-2".

Definition roomABCD : Room.t := Room.mk "room-1" "ABCD" lobby None.
Definition roomWXYZ : Room.t :=
  Room.mk "room-2" "WXYZ" active (Some "2025-03-01T20:00:00.000Z").

Definition aliceChallenge : Challenge.t :=
  Challenge.mk challengeA alice "2025-03-01T18:00:00+00:00" None None None None.
Definition bobChallenge : Challenge.t :=
  Challenge.mk challengeB bob "2025-03-01T18:00:00+00:00"
    (Some "https://project.supabase.co/storage/v1/object/public/retos/old.png")
    (Some image) (Some "image/png") (Some "2025-03-01T18:10:00.000Z").

(** Alice owns room ABCD (in the lobby), where Bob is a member; Carol owns
    room WXYZ (active).  Alice and Bob have one challenge each; Bob's has
    a submission already. *)
Definition store : World := {|
  player_sessions := [aliceSession; bobSession; carolSession];
  players := [alicePlayer; bobPlayer; carolPlayer];
  rooms := [roomABCD; roomWXYZ];
  room_members :=
    [ Member.mk "room-1" alice "owner"; Member.mk "room-1" bob "member";
      Member.mk "room-2" carol "owner" ];
  player_challenges := [aliceChallenge; bobChallenge]
|}.

Definition endRequest (token : option string) (code : string) : Request :=
  mkRequest token (Some [("code", JString code)]).

Definition commitRequest (token : option string) (id path mime : string) : Request :=
  mkRequest token
    (Some [("playerChallengeId", JString id); ("path", JString path);
           ("mime", JString mime)]).

Definition reserveRequest (token : option string) (id mime : string) : Request :=
  mkRequest token (Some [("playerChallengeId", JString id); ("mime", JString mime)]).

End Sample.



(** ** Reading a request, and who makes it *)

Definition pathOf (req : Request) : string := stringOrEmpty (member (json req) "path").
Definition mimeOf (req : Request) : string := stringOrEmpty (member (json req) "mime").

(** [mime.split("/")[0]] and [mime.split("/")[1]] *)
Definition family (mime : string) : option string := nth_error (split "/" mime) 0.
Definition subtype (mime : string) : option string := nth_error (split "/" mime) 1.

(** Does the character occur in the string? *)
Fixpoint occurs (c : ascii) (s : string) : bool :=
  match s with
  | EmptyString => false
  | String x rest => Ascii.eqb x c || occurs c rest
  end.

(** The request carries the (non-empty) session token [token]. *)
Definition carries (req : Request) (token : string) : Prop :=
  presentToken (sessionToken req) = Some token.

(** The request's [playerChallengeId] is the well-formed id [id]. *)
Definition namesChallenge (env : Env) (req : Request) (id : string) : Prop :=
  narrow (validateUuid env) (member (json req) "playerChallengeId") = Some id.

(** The request's [code] is the well-formed room code [code]. *)
Definition namesRoom (env : Env) (req : Request) (code : string) : Prop :=
  narrow (validateRoomCode env) (member (json req) "code") = Some code.

(** The request comes with a token the store resolves to the session [s],
    and names the challenge [pc], which belongs to the player of [s]. *)
Definition ownerRequest (env : Env) (w : World) (req : Request)
    (token id : string) (s : Session.t) (pc : Challenge.t) : Prop :=
  carries req token /\
  namesChallenge env req id /\
  lookupSession env w token = DbData (Some s) /\
  lookupChallenge env w (trim id) = DbData (Some pc) /\
  Challenge.player_id pc = Session.player_id s.

(** The request comes with a token the store resolves to the session [s] of
    the player [p], and names the existing room [room]. *)
Definition playerRequest (env : Env) (w : World) (req : Request)
    (token code : string) (s : Session.t) (p : Player.t) (room : Room.t) : Prop :=
  carries req token /\
  namesRoom env req code /\
  lookupSession env w token = DbData (Some s) /\
  lookupPlayer env w (Session.player_id s) = DbData (Some p) /\
  lookupRoom env w code = DbData (Some room).

(** The role of the player in the room, by the lookup in [room_members]. *)
Definition membershipRole (env : Env) (w : World) (room : Room.t) (p : Player.t) : string :=
  roleOf (dataOf (lookupMember env w (Room.id room) (Player.id p))).

(** No session token on the request, or one the session store has no row for. *)
Definition unknownCaller (env : Env) (w : World) (req : Request) : Prop :=
  match presentToken (sessionToken req) with
  | None => True
  | Some token => lookupSession env w token = DbData None
  end.

(** What the input checks of a handler answer, if they answer at all; they
    come after the test for a token and before the first lookup. *)
Definition malformedEnd (env : Env) (req : Request) : option Response :=
  match narrow (validateRoomCode env) (member (json req) "code") with
  | None => Some INVALID_ROOM_CODE
  | Some _ => None
  end.

Definition malformedReserve (env : Env) (req : Request) : option Response :=
  match narrow (validateUuid env) (member (json req) "playerChallengeId") with
  | None => Some INVALID_PLAYER_CHALLENGE_ID
  | Some _ => if badMime (mimeOf req) then Some INVALID_MIME else None
  end.

Definition malformedCommit (env : Env) (req : Request) : option Response :=
  match narrow (validateUuid env) (member (json req) "playerChallengeId") with
  | None => Some INVALID_PLAYER_CHALLENGE_ID
  | Some _ =>
      if isEmpty (pathOf req) then Some INVALID_PATH
      else if badMime (mimeOf req) then Some INVALID_MIME
      else None
  end.

(** Old and new table after an update of the rows with id [id]: the same
    rows in the same places, the rows with that id rewritten by [f]. *)
Definition rewritten {A : Type} (key : A -> string) (id : string) (f : A -> A)
    (old new : list A) : Prop :=
  Forall2 (fun o n => n = if key o =? id then f o else o) old new.

(** ** Statements of the specification the handlers do not meet as written *)

Module AsStated.

(** Upload commit: a path outside the caller's own folder is answered with
    NOT_ALLOWED, whatever else the request holds. *)
Definition foreignPathNotAllowed (env : Env) (w : World) (req : Request) : Prop :=
  forall token id s pc,
    ownerRequest env w req token id s pc ->
    startsWith (pathOf req) (Session.player_id s ++ "/") = false ->
    response (run (POST_commit env req) w) = Responded NOT_ALLOWED /\
    player_challenges (world (run (POST_commit env req) w)) = player_challenges w.

(** The one signal for "no such target" and "not your target". *)
Definition notFound (o : Outcome) : Prop :=
  exists r, o = Responded r /\ status r = 404.

(** End: a room that does not exist and a room that is not the caller's are
    both answered with the not-found signal. *)
Definition roomCollapsed (env : Env) (w : World) (req : Request) : Prop :=
  forall token code s p found,
    carries req token -> namesRoom env req code ->
    lookupSession env w token = DbData (Some s) ->
    lookupPlayer env w (Session.player_id s) = DbData (Some p) ->
    lookupRoom env w code = DbData found ->
    match found with
    | None => True
    | Some room => Room.id room <> Player.room_id p
    end ->
    notFound (response (run (POST_end env req) w)).

(** Upload commit: a challenge that does not exist and a challenge of another
    player are both answered with the not-found signal. *)
Definition challengeCollapsed (env : Env) (w : World) (req : Request) : Prop :=
  forall token id s found,
    carries req token -> namesChallenge env req id ->
    lookupSession env w token = DbData (Some s) ->
    lookupChallenge env w (trim id) = DbData found ->
    match found with
    | None => True
    | Some pc => Challenge.player_id pc <> Session.player_id s
    end ->
    notFound (response (run (POST_commit env req) w)).

(** End by the owner of a room that is not active: a success that leaves the
    rooms as they were. *)
Definition endIsNoOp (env : Env) (w : World) (req : Request) : Prop :=
  forall token code s p room,
    playerRequest env w req token code s p room ->
    Room.id room = Player.room_id p ->
    membershipRole env w room p = "owner" ->
    Room.status room = lobby \/ Room.status room = ended ->
    (exists r, response (run (POST_end env req) w) = Responded r /\ ok r = true) /\
    rooms (world (run (POST_end env req) w)) = rooms w.

(** An unknown caller is answered with UNAUTHORIZED by every operation,
    whatever the body. *)
Definition unknownIsUnauthorized (env : Env) (w : World) (req : Request) : Prop :=
  unknownCaller env w req ->
  response (run (POST_reserve env req) w) = Responded UNAUTHORIZED /\
  response (run (POST_commit env req) w) = Responded UNAUTHORIZED /\
  response (run (POST_end env req) w) = Responded UNAUTHORIZED.

(** Upload reserve and commit: a mime outside the image and video families
    is answered with INVALID_MIME, before any call. *)
Definition badMimeIsInvalidMime (env : Env) (w : World) (req : Request) : Prop :=
  badMime (mimeOf req) = true ->
  run (POST_reserve env req) w = (Responded INVALID_MIME, w, []) /\
  run (POST_commit env req) w = (Responded INVALID_MIME, w, []).

End AsStated.

(** ** The storage backend *)

(** The credential a storage call of the reserve handler asks for: the path
    it is for and the [upsert] option it was asked with. *)
Record Credential : Type := mkCredential { target : string; allowOverwrite : bool }.

Definition credentialOf (c : Call) : option Credential :=
  match c with
  | CreateSignedUploadUrl _ path upsert => Some (mkCredential path upsert)
  | _ => None
  end.

(** The objects of a bucket: paths with the bytes stored under them. *)
Definition Bucket : Type := list (string * string).

Definition stored (b : Bucket) (path : string) : option string :=
  match find (fun object => fst object =? path) b with
  | Some object => Some (snd object)
  | None => None
  end.

(** Modelled from the spec: the object store behind the storage interface is
    an external collaborator and is not among the source files.  The spec's
    storage interface issues an upload credential for a path, with an
    [allow_overwrite] option, and the client sends the bytes to the backend
    with that credential.  In this model an upload stores the bytes under the
    path of the credential; when an object is there already, the bytes take
    its place if the credential allows overwriting, and the upload fails
    otherwise. *)
Definition upload (cred : Credential) (bytes : string) (b : Bucket) : option Bucket :=
  match stored b (target cred) with
  | None => Some ((target cred, bytes) :: b)
  | Some _ =>
      if allowOverwrite cred
      then Some (map (fun object =>
                        if fst object =? target cred then (fst object, bytes) else object)
                     b)
      else None
  end.

(** ** Symbolic execution of the handlers *)

Ltac unfold_handler :=
  unfold run, bind, orReturn, returnIf, rowOr, select, update, call, sign, isoOf,
    respond, raise, ret, response, world, calls in *.

(** Case analysis on the first test of a chain of nested tests. *)
Ltac case_first :=
  match goal with
  | H : context [match ?x with _ => _ end] |- _ =>
      lazymatch x with
      | context [match _ with _ => _ end] => fail
      | _ => destruct x eqn:?
      end
  | H : context [if ?x then _ else _] |- _ =>
      lazymatch x with
      | context [match _ with _ => _ end] => fail
      | _ => destruct x eqn:?
      end
  end.

(** Case analysis on the first test of the goal. *)
Ltac case_goal :=
  match goal with
  | |- context [match ?x with _ => _ end] =>
      lazymatch x with
      | context [match _ with _ => _ end] => fail
      | _ => destruct x eqn:?
      end
  | |- context [if ?x then _ else _] =>
      lazymatch x with
      | context [match _ with _ => _ end] => fail
      | _ => destruct x eqn:?
      end
  end.

(** ** The routes together *)

(** The three routes, as the framework dispatches them. *)
Inductive Route : Type := EndRoom | CommitUpload | ReserveUpload.

Definition POST (route : Route) (env : Env) (req : Request) : Handler Response :=
  match route with
  | EndRoom => POST_end env req
  | CommitUpload => POST_commit env req
  | ReserveUpload => POST_reserve env req
  end.

(** A response with [ok: true]. *)
Definition succeeded (o : Outcome) : bool :=
  match o with
  | Responded r => ok r
  | Threw _ => false
  end.

(** Calls that write to the store. *)
Definition isWrite (c : Call) : bool :=
  match c with
  | UpdateRoom _ _ _ | UpdateChallenge _ _ _ _ _ => true
  | _ => false
  end.

(** The same deployment at another reading of the clock. *)
Definition atTime (env : Env) (now : string) : Env :=
  mkEnv (validateUuid env) (validateRoomCode env) now (toISOString env)
        (getPublicUrl env) (createSignedUploadUrl env) (dbFault env).

(** The store never fails a call. *)
Definition faultless (env : Env) : Prop := forall c, dbFault env c = None.

(** The status codes the handlers use, and the agreement of the status with
    the [ok] flag and the [hint] of a payload. *)
Definition coherent (r : Response) : bool :=
  match payload r with
  | Failure _ None =>
      existsb (Nat.eqb (status r)) [400; 401; 403; 404; 500]
  | Failure _ (Some _) => Nat.eqb (status r) 500
  | _ => Nat.eqb (status r) 200
  end.

(** ** The setup page: requests of the client *)

(** What [fetch] comes back with: a rejected promise, or a response, with
    its status and its body as [res.json().catch(() => null)] reads it. *)
Inductive Fetched : Type :=
| Rejected
| Resolved (status : nat) (json : Body).

(** [{ ok: true, data } | { ok: false, status, error }] *)
Inductive FetchResult : Type :=
| FetchOk (data : Body)
| FetchFailed (status : nat) (error : JsValue).

(** [v ?? fallback] *)
Definition orElse (v fallback : JsValue) : JsValue :=
  match v with
  | JUndefined | JNull => fallback
  | _ => v
  end.

(** [res.ok]: a status from 200 to 299. *)
Definition resOk (status : nat) : bool := Nat.leb 200 status && Nat.leb status 299.

(** The body of [fetchJson], from what [fetch] came back with. *)
Definition settle (f : Fetched) : FetchResult :=
  match f with
  | Rejected => FetchFailed 0 (JString "NETWORK_ERROR")
  | Resolved status json =>
      if negb (resOk status)
      then FetchFailed status (orElse (member json "error") (JString "REQUEST_FAILED"))
      else FetchOk json
  end.

(** The object a handler passes to [NextResponse.json]; nested objects are
    opaque. *)
Definition toJson (r : Response) : Body :=
  match payload r with
  | Failure error None => Some [("ok", JBool false); ("error", JString error)]
  | Failure error (Some hint) =>
      Some [("ok", JBool false); ("error", JString error); ("hint", JString hint)]
  | Ended endedAt => Some [("ok", JBool true); ("endedAt", JString endedAt)]
  | Media _ _ _ => Some [("ok", JBool true); ("media", JComposite)]
  | Upload _ _ _ => Some [("ok", JBool true); ("upload", JComposite)]
  end.

(** What [fetch] comes back with when a handler has responded. *)
Definition served (r : Response) : Fetched := Resolved (status r) (toJson r).

Definition errorOf (r : Response) : string :=
  match payload r with
  | Failure error _ => error
  | _ => ""
  end.

(** A request of the page: the url and the object that goes into
    [JSON.stringify] for the body. *)
Record Sent : Type := mkSent { url : string; body : list (string * JsValue) }.

(** The state of the page the two actions read and write, with the location
    the window was sent to, if it was. *)
Record Page : Type := mkPage {
  roomName : string;
  error : option JsValue;
  starting : bool;
  isOwner : bool;
  rounds : nat;
  href : option string
}.

(** Actions of the page: state, requests sent so far, early [return]. *)
Inductive Flow (A : Type) : Type :=
| Go (a : A)
| Left.
Arguments Go {A} a.
Arguments Left {A}.

Definition Client (A : Type) : Type := Page -> list Sent -> Flow A * Page * list Sent.

Definition pure {A : Type} (a : A) : Client A := fun pg sent => (Go a, pg, sent).

Definition andThen {A B : Type} (m : Client A) (k : A -> Client B) : Client B :=
  fun pg sent =>
    match m pg sent with
    | (Go a, pg', sent') => k a pg' sent'
    | (Left, pg', sent') => (Left, pg', sent')
    end.

Declare Scope client_scope.
Delimit Scope client_scope with client.
Notation "x <- m ;; k" := (andThen m (fun x => k))
  (at level 100, m at next level, right associativity) : client_scope.
Notation "m ;; k" := (andThen m (fun _ => k))
  (at level 100, right associativity) : client_scope.

(** [return;] *)
Definition leave {A : Type} : Client A := fun pg sent => (Left, pg, sent).

(** [if (cond) return;] *)
Definition leaveIf (cond : bool) : Client unit := if cond then leave else pure tt.

(** The state as the action sees it. *)
Definition page : Client Page := fun pg sent => (Go pg, pg, sent).

Definition setStarting (b : bool) : Client unit :=
  fun pg sent =>
    (Go tt, mkPage (roomName pg) (error pg) b (isOwner pg) (rounds pg) (href pg), sent).

Definition setError (e : option JsValue) : Client unit :=
  fun pg sent =>
    (Go tt, mkPage (roomName pg) e (starting pg) (isOwner pg) (rounds pg) (href pg), sent).

(** [window.location.href = target] *)
Definition navigate (target : string) : Client unit :=
  fun pg sent =>
    (Go tt, mkPage (roomName pg) (error pg) (starting pg) (isOwner pg) (rounds pg)
                   (Some target), sent).

(** [try { body } finally { cleanup }], at the end of an action. *)
Definition finally (body cleanup : Client unit) : Client unit :=
  fun pg sent =>
    match body pg sent with
    | (_, pg', sent') => cleanup pg' sent'
    end.

(** [!res.ok && res.status !== 409] is false. *)
Definition tolerated (res : FetchResult) : bool :=
  match res with
  | FetchOk _ => true
  | FetchFailed status _ => Nat.eqb status 409
  end.

Definition fetched (res : FetchResult) : bool :=
  match res with
  | FetchOk _ => true
  | FetchFailed _ _ => false
  end.

Section SetupPage.

(** The network, the user's answer to [window.confirm], and
    [encodeURIComponent]. *)
Variable net : Sent -> Fetched.
Variable confirm : bool.
Variable encodeURIComponent : string -> string.

Local Open Scope client_scope.

(** [await fetchJson(url, { method: "POST", ..., body: JSON.stringify(body) })] *)
Definition fetchJson (url : string) (body : list (string * JsValue)) : Client FetchResult :=
  fun pg sent => (Go (settle (net (mkSent url body))), pg, (sent ++ [mkSent url body])%list).

(** [if (!res.ok) { setError(res.error); return; }] *)
Definition giveUpUnlessOk (res : FetchResult) : Client unit :=
  match res with
  | FetchOk _ => pure tt
  | FetchFailed _ e => setError (Some e) ;; leave
  end.

(** [if (!res.ok && res.status !== 409) { setError(res.error); return; }] *)
Definition giveUpUnlessTolerated (res : FetchResult) : Client unit :=
  match res with
  | FetchOk _ => pure tt
  | FetchFailed status e =>
      if negb (Nat.eqb status 409) then (setError (Some e) ;; leave) else pure tt
  end.

Definition renameRequest (code name : string) : Sent :=
  mkSent "/api/rooms/rename" [("code", JString code); ("name", JString name)].

Definition roundsRequest (code : string) (rounds : nat) : Sent :=
  mkSent "/api/rooms/rounds" [("code", JString code); ("rounds", JNumber rounds)].

Definition startRequest (code : string) : Sent :=
  mkSent "/api/rooms/start" [("code", JString code)].

Definition closeRequest (code : string) : Sent :=
  mkSent "/api/rooms/close" [("code", JString code)].

(** src/app/setup/[code]/page.tsx, [startGame] *)
Definition startGame (code : string) : Client unit :=
  pg <- page ;;
  leaveIf (negb (isOwner pg)) ;;
  leaveIf (isEmpty code) ;;
  setStarting true ;;
  setError None ;;
  finally
    (let name := trim (roomName pg) in
     (if isEmpty name then pure tt
      else (rename <- fetchJson (url (renameRequest code name))
                                (body (renameRequest code name)) ;;
            giveUpUnlessOk rename)) ;;
     roundsRes <- fetchJson (url (roundsRequest code (rounds pg)))
                            (body (roundsRequest code (rounds pg))) ;;
     giveUpUnlessTolerated roundsRes ;;
     startRes <- fetchJson (url (startRequest code)) (body (startRequest code)) ;;
     giveUpUnlessTolerated startRes ;;
     navigate ("/room/" ++ encodeURIComponent code)%string)
    (setStarting false).

(** src/app/setup/[code]/page.tsx, [closeRoom] *)
Definition closeRoom (code : string) : Client unit :=
  pg <- page ;;
  leaveIf (negb (isOwner pg)) ;;
  leaveIf (isEmpty code) ;;
  leaveIf (negb confirm) ;;
  setStarting true ;;
  setError None ;;
  finally
    (res <- fetchJson (url (closeRequest code)) (body (closeRequest code)) ;;
     giveUpUnlessOk res ;;
     navigate "/")
    (setStarting false).

(** An action, from a state of the page, with nothing sent yet. *)
Definition act (action : Client unit) (pg : Page) : Page * list Sent :=
  match action pg [] with
  | (_, pg', sent) => (pg', sent)
  end.

(** The three answers [startGame] may get, as [fetchJson] reads them. *)
Definition renameAnswer (code : string) (pg : Page) : FetchResult :=
  settle (net (renameRequest code (trim (roomName pg)))).

Definition roundsAnswer (code : string) (pg : Page) : FetchResult :=
  settle (net (roundsRequest code (rounds pg))).

Definition startAnswer (code : string) : FetchResult :=
  settle (net (startRequest code)).

(** Does [startGame] get past the rename, the rounds, the start? *)
Definition renamePasses (code : string) (pg : Page) : bool :=
  isEmpty (trim (roomName pg)) || fetched (renameAnswer code pg).

Definition startPasses (code : string) (pg : Page) : bool :=
  renamePasses code pg && tolerated (roundsAnswer code pg) && tolerated (startAnswer code).

End SetupPage.

(** A second sample store: Alice's challenge has a time block that is no
    date. *)
Module Scenario.

Definition brokenChallenge : Challenge.t :=
  Challenge.mk Sample.challengeA Sample.alice "yesterday" None None None None.

Definition brokenStore : World :=
  withChallenges Sample.store [brokenChallenge; Sample.bobChallenge].

(** A store where the session of Alice has been written twice. *)
Definition doubledStore : World :=
  mkWorld (Sample.aliceSession :: player_sessions Sample.store) (players Sample.store)
          (rooms Sample.store) (room_members Sample.store)
          (player_challenges Sample.store).

(** NO-BREAK SPACE (U+00A0) and IDEOGRAPHIC SPACE (U+3000), in UTF-8. *)
Definition nbsp : string :=
  String (ascii_of_nat 194) (String (ascii_of_nat 160) EmptyString).

Definition ideographicSpace : string :=
  String (ascii_of_nat 227) (String (ascii_of_nat 128)
    (String (ascii_of_nat 128) EmptyString)).

(** The owner's page with a room name of white space only. *)
Definition blankPage : Page :=
  mkPage (nbsp ++ " " ++ ideographicSpace)%string None false true 4 None.

(** The owner's page for room ABCD, before the game is started. *)
Definition ownerPage : Page := mkPage "  Friday night " None false true 4 None.

Definition guestPage : Page := mkPage "Friday night" None false false 4 None.

(** A network where the room was started a moment ago by another click:
    rename is fine, rounds and start answer 409. *)
Definition alreadyStarted (s : Sent) : Fetched :=
  if url s =? "/api/rooms/rename" then Resolved 200 (Some [("ok", JBool true)])
  else Resolved 409 (Some [("ok", JBool false); ("error", JString "ROOM_ALREADY_STARTED")]).

(** A network that refuses the rename and accepts everything else. *)
Definition renameRefused (s : Sent) : Fetched :=
  if url s =? "/api/rooms/rename" then served NOT_ALLOWED
  else Resolved 200 (Some [("ok", JBool true)]).

(** A network that answers every request with 403 NOT_ALLOWED. *)
Definition refusing (s : Sent) : Fetched :=
  served NOT_ALLOWED.

(** [encodeURIComponent] on room codes, which are letters and digits. *)
Definition encodeCode (s : string) : string := s.

End Scenario.

Ltac unfold_client :=
  unfold act, startGame, closeRoom, andThen, finally, leaveIf, leave, pure, page,
    setStarting, setError, navigate, fetchJson, giveUpUnlessOk,
    giveUpUnlessTolerated in *.

(** * Facts *)

(** From here on [++] is string concatenation unless marked otherwise. *)
Local Open Scope string_scope.

(** ** Strings *)

(** [trim] on white space outside ASCII: a NO-BREAK SPACE, an IDEOGRAPHIC
    SPACE and a LINE SEPARATOR are stripped from both ends; the letter
    U+00E0, whose encoding ends with the byte of the NO-BREAK SPACE, and the
    ZERO WIDTH SPACE U+200B, which is no white space, are kept. *)
Lemma trim_beyond_ascii :
  let bytes := fun codes => string_of_list_ascii (map ascii_of_nat codes) in
  trim (bytes [194; 160]) = "" /\
  trim (bytes [227; 128; 128; 32; 97; 32; 98; 226; 128; 168; 194; 160]) = "a b" /\
  trim (bytes [32; 97; 195; 160; 9]) = bytes [97; 195; 160] /\
  trim (bytes [226; 128; 139]) = bytes [226; 128; 139].
Proof. cbv zeta; repeat split. Qed.

Lemma startsWith_append (p rest : string) : startsWith (p ++ rest) p = true.
Proof.
  unfold startsWith.
  induction p as [|c p IH]; simpl.
  - destruct rest; reflexivity.
  - destruct (ascii_dec c c) as [_|Hc]; [exact IH | contradiction].
Qed.

Lemma startsWith_inv (s p : string) :
  startsWith s p = true -> exists rest, s = p ++ rest.
Proof.
  unfold startsWith.
  revert s; induction p as [|c p IH]; intros s H.
  - exists s; reflexivity.
  - destruct s as [|d s]; simpl in H; [discriminate|].
    destruct (ascii_dec c d) as [->|_]; [|discriminate].
    destruct (IH s H) as [rest ->].
    exists rest; reflexivity.
Qed.

Lemma append_associative (a b c : string) : (a ++ b) ++ c = a ++ b ++ c.
Proof. induction a as [|x a IH]; simpl; [|rewrite IH]; reflexivity. Qed.

Lemma append_not_empty (p rest : string) :
  isEmpty (p ++ "/" ++ rest) = false.
Proof. destruct p; reflexivity. Qed.

Lemma split_not_nil (sep : ascii) (s : string) : split sep s <> [].
Proof.
  destruct s as [|c s]; simpl; [discriminate|].
  destruct (Ascii.eqb c sep); [discriminate|].
  destruct (split sep s); discriminate.
Qed.

Lemma split_parts_free (sep : ascii) (s : string) :
  Forall (fun part => occurs sep part = false) (split sep s).
Proof.
  induction s as [|c s IH]; simpl.
  - constructor; [reflexivity | constructor].
  - destruct (Ascii.eqb c sep) eqn:Hc.
    + constructor; [reflexivity | exact IH].
    + destruct (split sep s) as [|part parts].
      * constructor; [simpl; rewrite Hc; reflexivity | constructor].
      * inversion IH as [|? ? Hpart Hparts]; subst.
        constructor; [simpl; rewrite Hc; exact Hpart | exact Hparts].
Qed.

Lemma subtype_free (mime p : string) :
  subtype mime = Some p -> occurs "/" p = false.
Proof.
  unfold subtype; intros H.
  apply nth_error_In in H.
  exact (proj1 (Forall_forall _ _) (split_parts_free "/" mime) p H).
Qed.

Lemma dotOr_free (part : option string) (fallback : string) :
  (forall p, part = Some p -> occurs "/" p = false) ->
  occurs "/" fallback = false ->
  occurs "/" (dotOr part fallback) = false.
Proof.
  intros Hpart Hfb; unfold dotOr.
  destruct part as [p|]; [|exact Hfb].
  destruct (isEmpty p); [exact Hfb|].
  simpl; exact (Hpart p eq_refl).
Qed.

(** The extension never holds a path separator. *)
Lemma extFromMime_free (mime : string) : occurs "/" (extFromMime mime) = false.
Proof.
  unfold extFromMime.
  destruct (startsWith mime "image/");
    [apply dotOr_free; [apply subtype_free | reflexivity]|].
  destruct (startsWith mime "video/");
    [apply dotOr_free; [apply subtype_free | reflexivity]|].
  reflexivity.
Qed.

Lemma family_of_prefix (mime fam : string) :
  occurs "/" fam = false ->
  startsWith mime (fam ++ "/") = true -> family mime = Some fam.
Proof.
  intros Hfree H.
  apply startsWith_inv in H; destruct H as [rest ->].
  unfold family.
  induction fam as [|c fam IH]; simpl.
  - reflexivity.
  - simpl in Hfree; apply orb_false_iff in Hfree; destruct Hfree as [Hc Hfam].
    rewrite Hc.
    specialize (IH Hfam).
    destruct (split "/" ((fam ++ "/") ++ rest)) as [|part parts]; simpl in *.
    + discriminate.
    + inversion IH; reflexivity.
Qed.

(** Two acceptable mime strings of the same family and subtype get the same
    extension. *)
Lemma extFromMime_family_subtype (m1 m2 : string) :
  badMime m1 = false -> badMime m2 = false ->
  family m1 = family m2 -> subtype m1 = subtype m2 ->
  extFromMime m1 = extFromMime m2.
Proof.
  unfold badMime, extFromMime; fold (subtype m1) (subtype m2).
  intros H1 H2 Hfam Hsub.
  destruct (startsWith m1 "image/") eqn:I1, (startsWith m2 "image/") eqn:I2;
    destruct (startsWith m1 "video/") eqn:V1, (startsWith m2 "video/") eqn:V2;
    simpl in H1, H2;
    try (rewrite orb_true_r in H1; discriminate);
    try (rewrite orb_true_r in H2; discriminate);
    rewrite ?Hsub; try reflexivity;
    repeat match goal with
    | H : startsWith _ "image/" = true |- _ =>
        apply (family_of_prefix _ "image" eq_refl) in H
    | H : startsWith _ "video/" = true |- _ =>
        apply (family_of_prefix _ "video" eq_refl) in H
    end;
    try rewrite Hfam in I1; try rewrite Hfam in V1;
    match goal with
    | A : ?x = Some "image", B : ?x = Some "video" |- _ => rewrite A in B; discriminate
    end.
Qed.

(** ** Tables *)

Lemma rewritten_updateWhere {A : Type} (key : A -> string) (id : string)
    (f : A -> A) (rows : list A) :
  rewritten key id f rows (updateWhere (fun row => key row =? id) f rows).
Proof.
  unfold rewritten, updateWhere.
  induction rows as [|row rows IH]; simpl; constructor; auto.
Qed.

Lemma rewritten_length {A : Type} (key : A -> string) (id : string)
    (f : A -> A) (old new : list A) :
  rewritten key id f old new -> length new = length old.
Proof. intros H; symmetry; exact (Forall2_length H). Qed.

Lemma rewritten_In {A : Type} (key : A -> string) (id : string)
    (f : A -> A) (old new : list A) (n : A) :
  rewritten key id f old new -> In n new ->
  exists o, In o old /\ n = if key o =? id then f o else o.
Proof.
  unfold rewritten; induction 1 as [|o n' old new Hn _ IH]; simpl; intros Hin.
  - contradiction.
  - destruct Hin as [<-|Hin].
    + exists o; auto.
    + destruct (IH Hin) as (o' & Ho' & E); exists o'; auto.
Qed.

(** After the update, every row with the id holds the new media fields. *)
Lemma media_overwritten (url : string) (ty : MediaType) (mime at_ id : string)
    (old new : list Challenge.t) (row : Challenge.t) :
  rewritten Challenge.id id (setMedia url ty mime at_) old new ->
  In row new -> Challenge.id row = id ->
  Challenge.media_url row = Some url /\
  Challenge.media_type row = Some ty /\
  Challenge.media_mime row = Some mime /\
  Challenge.media_uploaded_at row = Some at_.
Proof.
  intros Hrew Hin Hid.
  destruct (rewritten_In _ _ _ _ _ _ Hrew Hin) as (o & _ & E).
  destruct (Challenge.id o =? id) eqn:Ho; subst row.
  - repeat split.
  - apply String.eqb_neq in Ho; contradiction.
Qed.

Lemma maybeSingle_row {A : Type} (rows : list A) (row : A) :
  maybeSingle rows = DbData (Some row) -> rows = [row].
Proof.
  destruct rows as [|r [|r' rows]]; simpl; intros H; try discriminate.
  inversion H; reflexivity.
Qed.

Lemma filter_single {A : Type} (f : A -> bool) (rows : list A) (row : A) :
  filter f rows = [row] -> In row rows /\ f row = true.
Proof.
  intros H.
  apply filter_In; rewrite H; left; reflexivity.
Qed.

Lemma updateWhere_In {A : Type} (matches : A -> bool) (f : A -> A)
    (rows : list A) (row : A) :
  In row rows -> matches row = true -> In (f row) (updateWhere matches f rows).
Proof.
  intros Hin Hm; unfold updateWhere.
  apply in_map_iff; exists row; rewrite Hm; auto.
Qed.

(** ** Runs of the handlers *)

Section Execution.

Variable env : Env.

(** Upload commit, past every check. *)
Lemma commit_runs (req : Request) (w : World) (token id : string)
    (s : Session.t) (pc : Challenge.t) :
  ownerRequest env w req token id s pc ->
  isEmpty (pathOf req) = false ->
  badMime (mimeOf req) = false ->
  startsWith (pathOf req) (Session.player_id s ++ "/") = true ->
  let url := getPublicUrl env BUCKET (pathOf req) in
  let ty := mediaTypeFromMime (mimeOf req) in
  let write := UpdateChallenge (Challenge.id pc) url ty (mimeOf req) (nowIso env) in
  let log := [SelectSession token; SelectChallenge (trim id);
              GetPublicUrl BUCKET (pathOf req); write] in
  run (POST_commit env req) w =
    match dbFault env write with
    | Some message => (Responded (INTERNAL message), w, log)
    | None => (Responded (success (Media url (mimeOf req) ty)),
               recordMedia (Challenge.id pc) url ty (mimeOf req) (nowIso env) w, log)
    end.
Proof.
  unfold ownerRequest, carries, namesChallenge, pathOf, mimeOf.
  intros (Htok & Hid & Hs & Hpc & Hown) Hpath Hmime Hpre; cbv zeta.
  unfold POST_commit; unfold_handler.
  rewrite Htok, Hid, Hpath, Hmime; cbn.
  rewrite Hs, Hpc, Hown, String.eqb_refl, Hpre; cbn.
  destruct (dbFault env _); reflexivity.
Qed.

(** A successful upload commit went past every check. *)
Lemma commit_success_inv (req : Request) (w w' : World) (r : Response)
    (log : list Call) :
  run (POST_commit env req) w = (Responded r, w', log) ->
  ok r = true ->
  exists token id s pc,
    ownerRequest env w req token id s pc /\
    isEmpty (pathOf req) = false /\ badMime (mimeOf req) = false /\
    startsWith (pathOf req) (Session.player_id s ++ "/") = true /\
    dbFault env (UpdateChallenge (Challenge.id pc)
                   (getPublicUrl env BUCKET (pathOf req))
                   (mediaTypeFromMime (mimeOf req)) (mimeOf req) (nowIso env)) = None.
Proof.
  unfold ownerRequest, carries, namesChallenge, pathOf, mimeOf.
  unfold POST_commit; unfold_handler.
  intros Hrun Hok.
  repeat case_first; cbn in *.
  all: try (inversion Hrun; subst; discriminate).
  apply negb_false_iff in Heqb1, Heqb2.
  apply String.eqb_eq in Heqb1.
  do 4 eexists; repeat split; eauto.
Qed.

(** A successful upload reserve: who asked, for which challenge, and the one
    storage call it made. *)
Lemma reserve_success_inv (req : Request) (w w' : World) (r : Response)
    (log : list Call) :
  run (POST_reserve env req) w = (Responded r, w', log) ->
  ok r = true ->
  exists token id s pc iso,
    ownerRequest env w req token id s pc /\
    badMime (mimeOf req) = false /\
    toISOString env (Challenge.block_start pc) = Some iso /\
    w' = w /\
    log = [SelectSession token; SelectChallenge (trim id);
           CreateSignedUploadUrl BUCKET
             (storagePath (Session.player_id s) iso (Challenge.id pc) (mimeOf req))
             true].
Proof.
  unfold ownerRequest, carries, namesChallenge, mimeOf.
  unfold POST_reserve; unfold_handler.
  intros Hrun Hok.
  repeat case_first; cbn in *.
  all: try (inversion Hrun; subst; discriminate).
  inversion Hrun; subst.
  apply negb_false_iff, String.eqb_eq in Heqb0.
  do 5 eexists; repeat split; eauto.
Qed.

(** End, once the caller and the room are resolved. *)
Lemma end_runs (req : Request) (w : World) (token code : string)
    (s : Session.t) (p : Player.t) (room : Room.t) :
  playerRequest env w req token code s p room ->
  let ask := SelectMember (Room.id room) (Player.id p) in
  let write := UpdateRoom (Room.id room) ended (nowIso env) in
  let seen := [SelectSession token; SelectPlayer (Session.player_id s);
               SelectRoom code] in
  run (POST_end env req) w =
    if negb (Room.id room =? Player.room_id p) then (Responded NOT_ALLOWED, w, seen)
    else if negb (membershipRole env w room p =? "owner")
    then (Responded NOT_ALLOWED, w, (seen ++ [ask])%list)
    else match dbFault env write with
         | Some message =>
             (Responded (INTERNAL message), w, (seen ++ [ask; write])%list)
         | None =>
             (Responded (success (Ended (nowIso env))),
              endRoom (Room.id room) (nowIso env) w, (seen ++ [ask; write])%list)
         end.
Proof.
  unfold playerRequest, carries, namesRoom, membershipRole.
  intros (Htok & Hcode & Hs & Hp & Hroom); cbv zeta.
  unfold POST_end; unfold_handler.
  rewrite Htok, Hcode; cbn.
  rewrite Hs; cbn. rewrite Hp; cbn. rewrite Hroom; cbn.
  destruct (negb (Room.id room =? Player.room_id p)); cbn; [reflexivity|].
  destruct (negb (roleOf _ =? "owner")); cbn; [reflexivity|].
  destruct (dbFault env _); reflexivity.
Qed.

(** A successful end was asked for by the owner of the room. *)
Lemma end_success_inv (req : Request) (w w' : World) (r : Response)
    (log : list Call) :
  run (POST_end env req) w = (Responded r, w', log) ->
  ok r = true ->
  exists token code s p room,
    playerRequest env w req token code s p room /\
    Room.id room = Player.room_id p /\
    membershipRole env w room p = "owner".
Proof.
  unfold playerRequest, carries, namesRoom, membershipRole.
  unfold POST_end; unfold_handler.
  intros Hrun Hok.
  repeat case_first; cbn in *.
  all: try (inversion Hrun; subst; discriminate).
  apply negb_false_iff, String.eqb_eq in Heqb, Heqb0.
  do 5 eexists; repeat split; eauto.
Qed.

(** The end handler reads the token and the [code] of the body, and nothing
    else of the request. *)
Lemma end_reads (req req' : Request) (w : World) :
  sessionToken req' = sessionToken req ->
  member (json req') "code" = member (json req) "code" ->
  run (POST_end env req') w = run (POST_end env req) w.
Proof.
  intros Htok Hcode; unfold POST_end; rewrite Htok, Hcode; reflexivity.
Qed.

End Execution.

(** * Upload commit *)

(** C1, as amended.  An upload commit made by the challenge's owning player
    with a path that does not start with ["{player_id}/"] never touches the
    store.  It is answered with NOT_ALLOWED (after the session and challenge
    lookups) when the path is not empty and the mime is of the image or
    video family; an empty path is answered with INVALID_PATH and another
    mime with INVALID_MIME, both before any lookup. *)
Theorem commit_foreign_path (env : Env) (w : World) (req : Request)
    (token id : string) (s : Session.t) (pc : Challenge.t) :
  ownerRequest env w req token id s pc ->
  startsWith (pathOf req) (Session.player_id s ++ "/") = false ->
  run (POST_commit env req) w =
    if isEmpty (pathOf req) then (Responded INVALID_PATH, w, [])
    else if badMime (mimeOf req) then (Responded INVALID_MIME, w, [])
    else (Responded NOT_ALLOWED, w, [SelectSession token; SelectChallenge (trim id)]).
Proof.
  unfold ownerRequest, carries, namesChallenge, pathOf, mimeOf.
  intros (Htok & Hid & Hs & Hpc & Hown) Hpre.
  unfold POST_commit; unfold_handler.
  rewrite Htok, Hid; cbn.
  destruct (isEmpty _); cbn; [reflexivity|].
  destruct (badMime _); cbn; [reflexivity|].
  rewrite Hs, Hpc, Hown, String.eqb_refl, Hpre; reflexivity.
Qed.

(** Alice commits a path in Bob's folder for her own challenge. *)
Lemma commit_foreign_path_witness :
  run (POST_commit Sample.env
         (Sample.commitRequest (Some "token-alice") Sample.challengeA
            (Sample.bob ++ "/clip.mp4") "video/mp4"))
      Sample.store
  = (Responded NOT_ALLOWED, Sample.store,
     [SelectSession "token-alice"; SelectChallenge Sample.challengeA]).
Proof.
  apply (commit_foreign_path Sample.env Sample.store
           (Sample.commitRequest (Some "token-alice") Sample.challengeA
              (Sample.bob ++ "/clip.mp4") "video/mp4")
           "token-alice" Sample.challengeA Sample.aliceSession Sample.aliceChallenge).
  - repeat split.
  - reflexivity.
Defined.

(** C1, as stated, fails.  Alice commits, for her own challenge, a path in
    Bob's folder with the mime of a PDF, and is answered with INVALID_MIME;
    she commits an empty path, and is answered with INVALID_PATH.  Neither
    answer is NOT_ALLOWED. *)
Lemma commit_foreign_path_counterexample :
  let pdf := Sample.commitRequest (Some "token-alice") Sample.challengeA
               (Sample.bob ++ "/paper.pdf") "application/pdf" in
  let empty := Sample.commitRequest (Some "token-alice") Sample.challengeA ""
                 "image/png" in
  response (run (POST_commit Sample.env pdf) Sample.store) = Responded INVALID_MIME /\
  ~ AsStated.foreignPathNotAllowed Sample.env Sample.store pdf /\
  response (run (POST_commit Sample.env empty) Sample.store) = Responded INVALID_PATH /\
  ~ AsStated.foreignPathNotAllowed Sample.env Sample.store empty.
Proof.
  cbv zeta.
  split; [reflexivity|]; split; [|split; [reflexivity|]]; intros H;
    (destruct (H "token-alice" Sample.challengeA Sample.aliceSession
                 Sample.aliceChallenge) as [Hresp _];
     [repeat split | reflexivity | vm_compute in Hresp; discriminate]).
Qed.

(** C9.  An upload commit made by the challenge's owning player with a mime
    of the image or video family and a path [{player_id}/suffix] goes
    through for every [suffix]: nothing but the existence of the prefix is
    looked at, and the url recorded on the challenge is the public url of
    the path as supplied.  (The one exit left is a failure of the store
    update itself.) *)
Theorem commit_accepts_any_suffix (env : Env) (w : World) (req : Request)
    (token id suffix : string) (s : Session.t) (pc : Challenge.t) :
  ownerRequest env w req token id s pc ->
  badMime (mimeOf req) = false ->
  pathOf req = Session.player_id s ++ "/" ++ suffix ->
  let url := getPublicUrl env BUCKET (Session.player_id s ++ "/" ++ suffix) in
  let ty := mediaTypeFromMime (mimeOf req) in
  let now := nowIso env in
  let write := UpdateChallenge (Challenge.id pc) url ty (mimeOf req) now in
  let log := [SelectSession token; SelectChallenge (trim id);
              GetPublicUrl BUCKET (Session.player_id s ++ "/" ++ suffix); write] in
  let w' := recordMedia (Challenge.id pc) url ty (mimeOf req) now w in
  run (POST_commit env req) w =
    match dbFault env write with
    | Some message => (Responded (INTERNAL message), w, log)
    | None => (Responded (success (Media url (mimeOf req) ty)), w', log)
    end /\
  In (setMedia url ty (mimeOf req) now pc) (player_challenges w') /\
  Challenge.media_url (setMedia url ty (mimeOf req) now pc) = Some url.
Proof.
  intros Hown Hmime Hpath; cbv zeta.
  assert (Hpre : startsWith (pathOf req) (Session.player_id s ++ "/") = true).
  { rewrite Hpath, <- append_associative; apply startsWith_append. }
  assert (Hne : isEmpty (pathOf req) = false)
    by (rewrite Hpath; apply append_not_empty).
  pose proof (commit_runs env req w token id s pc Hown Hne Hmime Hpre) as Hrun.
  cbv zeta in Hrun; rewrite Hpath in Hrun.
  split; [exact Hrun|].
  split; [|reflexivity].
  destruct Hown as (_ & _ & _ & Hpc & _).
  unfold lookupChallenge, answer in Hpc.
  destruct (dbFault env _); [discriminate|].
  apply maybeSingle_row, filter_single in Hpc; destruct Hpc as [Hin Hid].
  unfold recordMedia; simpl.
  apply updateWhere_In; [exact Hin | apply String.eqb_refl].
Qed.

(** Alice commits a path under her own prefix that no reserve ever derived:
    no time block, no challenge id, an extension that does not match. *)
Lemma commit_accepts_any_suffix_witness :
  let path := Sample.alice ++ "/any/where.bin" in
  let url := "https://project.supabase.co/storage/v1/object/public/retos/" ++ path in
  response (run (POST_commit Sample.env
                   (Sample.commitRequest (Some "token-alice") Sample.challengeA
                      path "image/png"))
                Sample.store)
  = Responded (success (Media url "image/png" image)).
Proof.
  cbv zeta.
  pose proof (commit_accepts_any_suffix Sample.env Sample.store
                (Sample.commitRequest (Some "token-alice") Sample.challengeA
                   (Sample.alice ++ "/any/where.bin") "image/png")
                "token-alice" Sample.challengeA "any/where.bin"
                Sample.aliceSession Sample.aliceChallenge) as H.
  cbv zeta in H.
  destruct H as [Hrun _].
  - repeat split.
  - reflexivity.
  - reflexivity.
  - rewrite Hrun; reflexivity.
Defined.

(** C5.  A successful upload commit records the family [video] exactly when
    the mime starts with ["video/"] and [image] otherwise, and overwrites the
    four media fields of the challenge record the request names -- the one
    row whose id is the trimmed [playerChallengeId], which belongs to the
    player of the session -- whatever they held: the table keeps its rows
    and its length, the rows with another id and the other tables are
    untouched, and the one write of the run is the update of that record. *)
Theorem commit_records_media (env : Env) (req : Request) (w w' : World)
    (r : Response) (log : list Call) :
  run (POST_commit env req) w = (Responded r, w', log) ->
  ok r = true ->
  let mime := mimeOf req in
  let url := getPublicUrl env BUCKET (pathOf req) in
  let ty := mediaTypeFromMime mime in
  let now := nowIso env in
  (ty = video <-> startsWith mime "video/" = true) /\
  (ty = image <-> startsWith mime "video/" = false) /\
  r = success (Media url mime ty) /\
  exists token id s pc,
    ownerRequest env w req token id s pc /\
    Challenge.id pc = trim id /\
    filter isWrite log = [UpdateChallenge (trim id) url ty mime now] /\
    In pc (player_challenges w) /\
    In (setMedia url ty mime now pc) (player_challenges w') /\
    rewritten Challenge.id (Challenge.id pc) (setMedia url ty mime now)
      (player_challenges w) (player_challenges w') /\
    length (player_challenges w') = length (player_challenges w) /\
    (forall row, In row (player_challenges w') ->
       Challenge.id row = Challenge.id pc ->
       Challenge.media_url row = Some url /\
       Challenge.media_type row = Some ty /\
       Challenge.media_mime row = Some mime /\
       Challenge.media_uploaded_at row = Some now) /\
    player_sessions w' = player_sessions w /\ players w' = players w /\
    rooms w' = rooms w /\ room_members w' = room_members w.
Proof.
  intros Hrun Hok; cbv zeta.
  split; [|split].
  - unfold mediaTypeFromMime; destruct (startsWith _ "video/");
      split; intros; congruence.
  - unfold mediaTypeFromMime; destruct (startsWith _ "video/");
      split; intros; congruence.
  - destruct (commit_success_inv env req w w' r log Hrun Hok)
      as (token & id & s & pc & Hown & Hne & Hmime & Hpre & Hfault).
    pose proof (commit_runs env req w token id s pc Hown Hne Hmime Hpre) as Heq.
    cbv zeta in Heq; rewrite Hfault, Hrun in Heq.
    inversion Heq; subst; clear Heq.
    split; [reflexivity|].
    exists token, id, s, pc.
    split; [exact Hown|].
    destruct Hown as (_ & _ & _ & Hpc & _).
    unfold lookupChallenge, answer in Hpc.
    destruct (dbFault env (SelectChallenge _)); [discriminate|].
    apply maybeSingle_row, filter_single in Hpc; destruct Hpc as [Hin Hid].
    apply String.eqb_eq in Hid.
    pose proof (rewritten_updateWhere Challenge.id (Challenge.id pc)
                  (setMedia (getPublicUrl env BUCKET (pathOf req))
                     (mediaTypeFromMime (mimeOf req)) (mimeOf req) (nowIso env))
                  (player_challenges w)) as Hrew.
    unfold recordMedia; simpl.
    split; [exact Hid|].
    split; [rewrite Hid; reflexivity|].
    split; [exact Hin|].
    split; [apply updateWhere_In; [exact Hin | apply String.eqb_refl]|].
    split; [exact Hrew|].
    split; [exact (rewritten_length _ _ _ _ _ Hrew)|].
    split; [|repeat split].
    intros row Hrow Hrowid.
    exact (media_overwritten _ _ _ _ _ _ _ row Hrew Hrow Hrowid).
Qed.

(** Bob, whose challenge holds a picture already, commits a video for it:
    the record now holds the video, in place of the picture, and Alice's
    record is as it was. *)
Lemma commit_records_media_witness :
  let path := Sample.bob ++ "/clip.mp4" in
  let req := Sample.commitRequest (Some "token-bob") Sample.challengeB path "video/mp4" in
  let url := "https://project.supabase.co/storage/v1/object/public/retos/" ++ path in
  player_challenges (world (run (POST_commit Sample.env req) Sample.store))
  = [Sample.aliceChallenge;
     setMedia url video "video/mp4" "2025-03-01T18:30:00.000Z" Sample.bobChallenge]
  /\ length (player_challenges (world (run (POST_commit Sample.env req) Sample.store))) = 2
  /\ exists id pc,
       namesChallenge Sample.env req id /\
       lookupChallenge Sample.env Sample.store (trim id) = DbData (Some pc) /\
       Challenge.id pc = Sample.challengeB.
Proof.
  cbv zeta.
  split; [reflexivity|].
  pose proof (commit_records_media Sample.env
    (Sample.commitRequest (Some "token-bob") Sample.challengeB
       (Sample.bob ++ "/clip.mp4") "video/mp4")
    Sample.store
    (world (run (POST_commit Sample.env
       (Sample.commitRequest (Some "token-bob") Sample.challengeB
          (Sample.bob ++ "/clip.mp4") "video/mp4")) Sample.store))
    (success (Media
       ("https://project.supabase.co/storage/v1/object/public/retos/"
        ++ Sample.bob ++ "/clip.mp4") "video/mp4" video))
    (calls (run (POST_commit Sample.env
       (Sample.commitRequest (Some "token-bob") Sample.challengeB
          (Sample.bob ++ "/clip.mp4") "video/mp4")) Sample.store))) as H.
  cbv zeta in H.
  destruct H as (_ & _ & _ & token & id & s & pc & Hown & Hid & _ & _ & _ & _ & Hlen & _).
  - reflexivity.
  - reflexivity.
  - split; [rewrite Hlen; reflexivity|].
    destruct Hown as (_ & Hnames & _ & Hpc & _).
    exists id, pc; repeat split; try assumption.
    rewrite Hid.
    unfold namesChallenge in Hnames; vm_compute in Hnames.
    inversion Hnames; reflexivity.
Defined.

(** * Upload reserve *)



(** An upload with a credential that allows overwriting goes through,
    whatever the bucket holds, and leaves its bytes under the path. *)
Lemma upload_overwrites (cred : Credential) (bytes : string) (b : Bucket) :
  allowOverwrite cred = true ->
  exists b', upload cred bytes b = Some b' /\ stored b' (target cred) = Some bytes.
Proof.
  intros Hover; unfold upload; rewrite Hover.
  destruct (stored b (target cred)) eqn:Hthere.
  - eexists; split; [reflexivity|].
    unfold stored in *.
    induction b as [|object b IH]; simpl in *; [discriminate|].
    destruct (fst object =? target cred) eqn:Hhit; simpl.
    + rewrite Hhit; reflexivity.
    + rewrite Hhit; apply IH; exact Hthere.
  - eexists; split; [reflexivity|].
    unfold stored; simpl; rewrite String.eqb_refl; reflexivity.
Qed.

Lemma narrow_string (valid : string -> bool) (v : JsValue) (s : string) :
  narrow valid v = Some s -> v = JString s.
Proof.
  destruct v; simpl; try discriminate.
  destruct (valid s0); [intros H; inversion H; reflexivity | discriminate].
Qed.

Lemma answer_unique (env env' : Env) {A : Type} (c c' : Call) (rows : list A)
    (row row' : A) :
  answer env c rows = DbData (Some row) ->
  answer env' c' rows = DbData (Some row') ->
  row = row'.
Proof.
  unfold answer.
  destruct (dbFault env c); [discriminate|].
  destruct (dbFault env' c'); [discriminate|].
  intros H H'; apply maybeSingle_row in H, H'.
  rewrite H in H'; inversion H'; reflexivity.
Qed.

(** C10.  A successful upload reserve asks for its credential with
    [upsert: true] and leaves the store as it was.  A second successful
    reserve for the same challenge with a mime of the same family and
    subtype -- at any later time, whatever the storage interface and the
    store answer then -- asks for a credential for the very same path,
    [{player_id}/{block_start as ISO-8601}/{id}{extension}], again with
    [upsert: true].  With such credentials an upload goes through whether or
    not an object is under the path already, and the bytes of the second
    upload take the place of those of the first. *)
Theorem reserve_upsert_same_path (env1 env2 : Env) (req1 req2 : Request)
    (w w1 w2 : World) (r1 r2 : Response) (log1 log2 : list Call) :
  run (POST_reserve env1 req1) w = (Responded r1, w1, log1) -> ok r1 = true ->
  run (POST_reserve env2 req2) w1 = (Responded r2, w2, log2) -> ok r2 = true ->
  (forall date, toISOString env2 date = toISOString env1 date) ->
  member (json req2) "playerChallengeId" = member (json req1) "playerChallengeId" ->
  family (mimeOf req2) = family (mimeOf req1) ->
  subtype (mimeOf req2) = subtype (mimeOf req1) ->
  w1 = w /\ w2 = w /\
  exists token id s pc iso,
    ownerRequest env1 w req1 token id s pc /\
    toISOString env1 (Challenge.block_start pc) = Some iso /\
    let path := Session.player_id s ++ "/" ++ iso ++ "/" ++ Challenge.id pc
                ++ extFromMime (mimeOf req1) in
    filter isStorageCall log1 = [CreateSignedUploadUrl BUCKET path true] /\
    filter isStorageCall log2 = [CreateSignedUploadUrl BUCKET path true] /\
    forall (c1 c2 : Call) (cred1 cred2 : Credential) (bucket : Bucket)
           (first second : string),
      In c1 log1 -> credentialOf c1 = Some cred1 ->
      In c2 log2 -> credentialOf c2 = Some cred2 ->
      target cred1 = path /\ target cred2 = path /\
      exists b1 b2,
        upload cred1 first bucket = Some b1 /\
        upload cred2 second b1 = Some b2 /\
        stored b2 path = Some second.
Proof.
  intros Hrun1 Hok1 Hrun2 Hok2 Hdate Hsame Hfam Hsub.
  destruct (reserve_success_inv env1 req1 w w1 r1 log1 Hrun1 Hok1)
    as (t1 & id1 & s1 & pc1 & iso1 & Hown1 & Hm1 & Hiso1 & -> & ->).
  destruct (reserve_success_inv env2 req2 w w2 r2 log2 Hrun2 Hok2)
    as (t2 & id2 & s2 & pc2 & iso2 & Hown2 & Hm2 & Hiso2 & -> & ->).
  split; [reflexivity|]; split; [reflexivity|].
  exists t1, id1, s1, pc1, iso1.
  split; [exact Hown1|]; split; [exact Hiso1|].
  destruct Hown1 as (_ & Hid1 & _ & Hpc1 & Hp1).
  destruct Hown2 as (_ & Hid2 & _ & Hpc2 & Hp2).
  unfold namesChallenge in Hid1, Hid2.
  apply narrow_string in Hid1, Hid2.
  rewrite Hsame, Hid1 in Hid2; inversion Hid2; subst id2.
  pose proof (answer_unique _ _ _ _ _ _ _ Hpc1 Hpc2) as Hpc; subst pc2.
  rewrite Hdate, Hiso1 in Hiso2; inversion Hiso2; subst iso2.
  assert (Hpath : storagePath (Session.player_id s2) iso1 (Challenge.id pc1) (mimeOf req2)
                  = storagePath (Session.player_id s1) iso1 (Challenge.id pc1) (mimeOf req1)).
  { unfold storagePath.
    rewrite <- Hp2, Hp1, (extFromMime_family_subtype _ _ Hm2 Hm1 Hfam Hsub).
    reflexivity. }
  rewrite Hpath.
  cbv zeta; fold (storagePath (Session.player_id s1) iso1 (Challenge.id pc1) (mimeOf req1)).
  split; [reflexivity|]; split; [reflexivity|].
  intros c1 c2 cred1 cred2 bucket first second Hin1 Hc1 Hin2 Hc2.
  assert (Hcred : forall token idx c cred,
            In c [SelectSession token; SelectChallenge idx;
                  CreateSignedUploadUrl BUCKET
                    (storagePath (Session.player_id s1) iso1 (Challenge.id pc1)
                       (mimeOf req1)) true] ->
            credentialOf c = Some cred ->
            cred = mkCredential
                     (storagePath (Session.player_id s1) iso1 (Challenge.id pc1)
                        (mimeOf req1)) true).
  { intros token idx c cred [<-|[<-|[<-|[]]]] H; simpl in H;
      try discriminate; inversion H; reflexivity. }
  apply (Hcred _ _ _ _ Hin1) in Hc1.
  apply (Hcred _ _ _ _ Hin2) in Hc2.
  subst cred1 cred2; simpl.
  split; [reflexivity|]; split; [reflexivity|].
  destruct (upload_overwrites
              (mkCredential (storagePath (Session.player_id s1) iso1 (Challenge.id pc1)
                               (mimeOf req1)) true) first bucket eq_refl)
    as (b1 & Hb1 & _).
  destruct (upload_overwrites
              (mkCredential (storagePath (Session.player_id s1) iso1 (Challenge.id pc1)
                               (mimeOf req1)) true) second b1 eq_refl)
    as (b2 & Hb2 & Hstored).
  exists b1, b2; auto.
Qed.

(** Alice reserves twice for the same challenge: with ["image/png"] at 18:30
    and, at 19:00, with ["image/png/v2"], which has the same family and
    subtype.  She uploads a first picture and then a second. *)
Lemma reserve_upsert_same_path_witness :
  let first := Sample.reserveRequest (Some "token-alice") Sample.challengeA "image/png" in
  let again := Sample.reserveRequest (Some "token-alice") Sample.challengeA "image/png/v2" in
  let later := Sample.envAt "2025-03-01T19:00:00.000Z" in
  let path := Sample.alice ++ "/2025-03-01T18:00:00.000Z/" ++ Sample.challengeA ++ ".png" in
  filter isStorageCall (calls (run (POST_reserve Sample.env first) Sample.store))
  = [CreateSignedUploadUrl "retos" path true] /\
  filter isStorageCall (calls (run (POST_reserve later again) Sample.store))
  = [CreateSignedUploadUrl "retos" path true] /\
  exists b1 b2,
    upload (mkCredential path true) "first picture" [] = Some b1 /\
    upload (mkCredential path true) "second picture" b1 = Some b2 /\
    stored b2 path = Some "second picture".
Proof.
  cbv zeta.
  destruct (reserve_upsert_same_path Sample.env
    (Sample.envAt "2025-03-01T19:00:00.000Z")
    (Sample.reserveRequest (Some "token-alice") Sample.challengeA "image/png")
    (Sample.reserveRequest (Some "token-alice") Sample.challengeA "image/png/v2")
    Sample.store Sample.store Sample.store
    (success (Upload
       (Sample.alice ++ "/2025-03-01T18:00:00.000Z/" ++ Sample.challengeA ++ ".png")
       "signed-token"
       ("https://project.supabase.co/storage/v1/object/upload/sign/retos/"
        ++ Sample.alice ++ "/2025-03-01T18:00:00.000Z/" ++ Sample.challengeA
        ++ ".png?token=signed-token")))
    (success (Upload
       (Sample.alice ++ "/2025-03-01T18:00:00.000Z/" ++ Sample.challengeA ++ ".png")
       "signed-token"
       ("https://project.supabase.co/storage/v1/object/upload/sign/retos/"
        ++ Sample.alice ++ "/2025-03-01T18:00:00.000Z/" ++ Sample.challengeA
        ++ ".png?token=signed-token")))
    (calls (run (POST_reserve Sample.env
       (Sample.reserveRequest (Some "token-alice") Sample.challengeA "image/png"))
       Sample.store))
    (calls (run (POST_reserve (Sample.envAt "2025-03-01T19:00:00.000Z")
       (Sample.reserveRequest (Some "token-alice") Sample.challengeA "image/png/v2"))
       Sample.store)))
    as (_ & _ & token & id & s & pc & iso & _ & _ & _).
  - reflexivity.
  - reflexivity.
  - reflexivity.
  - reflexivity.
  - intros date; reflexivity.
  - reflexivity.
  - reflexivity.
  - reflexivity.
  - split; [reflexivity|]; split; [reflexivity|].
    eexists; eexists; repeat split.
Defined.

(** * End of a room *)

(** C3, as amended.  End, asked by the owner of the room, does the same from
    every status: it writes [status = ended] and [ends_at = now] on the room
    and answers with a success, be the room in the lobby, active or ended
    already.  (A failure of the store update is answered with its message and
    leaves the room as it was.) *)
Theorem end_always_ends (env : Env) (w : World) (req : Request)
    (token code : string) (s : Session.t) (p : Player.t) (room : Room.t) :
  playerRequest env w req token code s p room ->
  Room.id room = Player.room_id p ->
  membershipRole env w room p = "owner" ->
  let now := nowIso env in
  let write := UpdateRoom (Room.id room) ended now in
  let log := [SelectSession token; SelectPlayer (Session.player_id s); SelectRoom code;
              SelectMember (Room.id room) (Player.id p); write] in
  let w' := endRoom (Room.id room) now w in
  run (POST_end env req) w =
    match dbFault env write with
    | Some message => (Responded (INTERNAL message), w, log)
    | None => (Responded (success (Ended now)), w', log)
    end /\
  rewritten Room.id (Room.id room) (setEnded ended now) (rooms w) (rooms w') /\
  In (setEnded ended now room) (rooms w') /\
  Room.status (setEnded ended now room) = ended /\
  Room.ends_at (setEnded ended now room) = Some now.
Proof.
  intros Hreq Hroom Hrole; cbv zeta.
  split; [|split; [|split; [|split; reflexivity]]].
  - pose proof (end_runs env req w token code s p room Hreq) as Hrun.
    cbv zeta in Hrun.
    rewrite Hroom, Hrole, String.eqb_refl in Hrun; simpl in Hrun.
    rewrite <- Hroom in Hrun; exact Hrun.
  - apply rewritten_updateWhere.
  - destruct Hreq as (_ & _ & _ & _ & Hfound).
    unfold lookupRoom, answer in Hfound.
    destruct (dbFault env _); [discriminate|].
    apply maybeSingle_row, filter_single in Hfound; destruct Hfound as [Hin _].
    unfold endRoom; simpl.
    apply updateWhere_In; [exact Hin | apply String.eqb_refl].
Qed.

(** Carol ends her room, which is active. *)
Lemma end_always_ends_witness :
  run (POST_end Sample.env (Sample.endRequest (Some "token-carol") "WXYZ")) Sample.store
  = (Responded (success (Ended "2025-03-01T18:30:00.000Z")),
     endRoom "room-2" "2025-03-01T18:30:00.000Z" Sample.store,
     [SelectSession "token-carol"; SelectPlayer Sample.carol; SelectRoom "WXYZ";
      SelectMember "room-2" Sample.carol;
      UpdateRoom "room-2" ended "2025-03-01T18:30:00.000Z"]).
Proof.
  pose proof (end_always_ends Sample.env Sample.store
                (Sample.endRequest (Some "token-carol") "WXYZ")
                "token-carol" "WXYZ" Sample.carolSession Sample.carolPlayer
                Sample.roomWXYZ) as H.
  cbv zeta in H.
  destruct H as [Hrun _].
  - repeat split.
  - reflexivity.
  - reflexivity.
  - exact Hrun.
Defined.

(** C3, as stated, fails.  Alice ends her room from the lobby, and the room
    is ended as of now instead of being left in the lobby; Carol ends her
    room and, half an hour later, ends it again, and the end of the ended
    room moves to the later time. *)
Lemma end_from_lobby_counterexample :
  let req := Sample.endRequest (Some "token-alice") "ABCD" in
  let again := Sample.endRequest (Some "token-carol") "WXYZ" in
  let later := Sample.envAt "2025-03-01T19:00:00.000Z" in
  let endedStore := endRoom "room-2" "2025-03-01T18:30:00.000Z" Sample.store in
  (Room.status Sample.roomABCD = lobby /\
   rooms (world (run (POST_end Sample.env req) Sample.store))
   = [Room.mk "room-1" "ABCD" ended (Some "2025-03-01T18:30:00.000Z"); Sample.roomWXYZ] /\
   ~ AsStated.endIsNoOp Sample.env Sample.store req) /\
  (rooms endedStore
   = [Sample.roomABCD; Room.mk "room-2" "WXYZ" ended (Some "2025-03-01T18:30:00.000Z")] /\
   rooms (world (run (POST_end later again) endedStore))
   = [Sample.roomABCD; Room.mk "room-2" "WXYZ" ended (Some "2025-03-01T19:00:00.000Z")] /\
   ~ AsStated.endIsNoOp later endedStore again).
Proof.
  cbv zeta; split; (split; [reflexivity|]; split; [reflexivity|]); intros H.
  - destruct (H "token-alice" "ABCD" Sample.aliceSession Sample.alicePlayer
                Sample.roomABCD) as [_ Hrooms].
    + repeat split.
    + reflexivity.
    + reflexivity.
    + left; reflexivity.
    + vm_compute in Hrooms; discriminate.
  - destruct (H "token-carol" "WXYZ" Sample.carolSession Sample.carolPlayer
                (Room.mk "room-2" "WXYZ" ended (Some "2025-03-01T18:30:00.000Z")))
      as [_ Hrooms].
    + repeat split.
    + reflexivity.
    + reflexivity.
    + right; reflexivity.
    + vm_compute in Hrooms; discriminate.
Qed.

(** C7.  End, asked by an authenticated player whose role in the room, by the
    lookup in [room_members], is not exactly ["owner"] (another role, no
    row, a failed lookup), is answered with NOT_ALLOWED and writes nothing.
    The answer does not depend on anything in the request besides the token
    and the room code, and every successful end was asked by a player whose
    looked-up role is ["owner"]. *)
Theorem end_owner_only (env : Env) (w : World) (req : Request)
    (token code : string) (s : Session.t) (p : Player.t) (room : Room.t) :
  playerRequest env w req token code s p room ->
  membershipRole env w room p <> "owner" ->
  run (POST_end env req) w =
    (Responded NOT_ALLOWED, w,
     [SelectSession token; SelectPlayer (Session.player_id s); SelectRoom code]
     ++ (if Room.id room =? Player.room_id p
         then [SelectMember (Room.id room) (Player.id p)] else []))%list /\
  (forall req',
     sessionToken req' = sessionToken req ->
     member (json req') "code" = member (json req) "code" ->
     run (POST_end env req') w = run (POST_end env req) w) /\
  (forall req0 w0 r w' log,
     run (POST_end env req0) w0 = (Responded r, w', log) -> ok r = true ->
     exists token0 code0 s0 p0 room0,
       playerRequest env w0 req0 token0 code0 s0 p0 room0 /\
       membershipRole env w0 room0 p0 = "owner").
Proof.
  intros Hreq Hrole.
  split; [|split].
  - pose proof (end_runs env req w token code s p room Hreq) as Hrun.
    cbv zeta in Hrun; rewrite Hrun.
    destruct (Room.id room =? Player.room_id p); simpl; [|reflexivity].
    apply String.eqb_neq in Hrole; rewrite Hrole; reflexivity.
  - intros req'; apply end_reads.
  - intros req0 w0 r w' log Hrun Hok.
    destruct (end_success_inv env req0 w0 w' r log Hrun Hok)
      as (t0 & c0 & s0 & p0 & room0 & H0 & _ & Hr0).
    exists t0, c0, s0, p0, room0; auto.
Qed.

(** Bob, a member of Alice's room, asks to end it, and says he is the owner
    in the body of the request. *)
Lemma end_owner_only_witness :
  let req := mkRequest (Some "token-bob")
               (Some [("code", JString "ABCD"); ("role", JString "owner")]) in
  run (POST_end Sample.env req) Sample.store
  = (Responded NOT_ALLOWED, Sample.store,
     [SelectSession "token-bob"; SelectPlayer Sample.bob; SelectRoom "ABCD";
      SelectMember "room-1" Sample.bob]).
Proof.
  cbv zeta.
  destruct (end_owner_only Sample.env Sample.store
              (mkRequest (Some "token-bob")
                 (Some [("code", JString "ABCD"); ("role", JString "owner")]))
              "token-bob" "ABCD" Sample.bobSession Sample.bobPlayer Sample.roomABCD)
    as [Hrun _].
  - repeat split.
  - vm_compute; discriminate.
  - exact Hrun.
Defined.

(** * Targets that do not exist, and targets of others *)

(** C2, as amended.  For an authenticated caller, end tells a room code that
    names no room (ROOM_NOT_FOUND, 404) from a room that exists and is not
    the caller's (NOT_ALLOWED, 403); upload commit and upload reserve each
    give one and the same answer, NOT_ALLOWED (403), for a challenge that
    does not exist and for a challenge of another player.  Nothing is
    written in either case.  The three routes are taken one by one, each
    for any request of its own that carries the caller's token and passes
    the input checks of that route. *)
Theorem missing_or_foreign_target (env : Env) (w : World) (token : string)
    (s : Session.t) :
  lookupSession env w token = DbData (Some s) ->
  (forall (req : Request) (code : string) (p : Player.t) (found : option Room.t),
     carries req token -> namesRoom env req code ->
     lookupPlayer env w (Session.player_id s) = DbData (Some p) ->
     lookupRoom env w code = DbData found ->
     match found with
     | None => True
     | Some room => Room.id room <> Player.room_id p
     end ->
     run (POST_end env req) w =
       (Responded match found with
                  | None => ROOM_NOT_FOUND
                  | Some _ => NOT_ALLOWED
                  end,
        w, [SelectSession token; SelectPlayer (Session.player_id s); SelectRoom code])) /\
  (forall (req : Request) (id : string) (found : option Challenge.t),
     carries req token -> namesChallenge env req id ->
     malformedCommit env req = None ->
     lookupChallenge env w (trim id) = DbData found ->
     match found with
     | None => True
     | Some pc => Challenge.player_id pc <> Session.player_id s
     end ->
     run (POST_commit env req) w =
       (Responded NOT_ALLOWED, w, [SelectSession token; SelectChallenge (trim id)])) /\
  (forall (req : Request) (id : string) (found : option Challenge.t),
     carries req token -> namesChallenge env req id ->
     malformedReserve env req = None ->
     lookupChallenge env w (trim id) = DbData found ->
     match found with
     | None => True
     | Some pc => Challenge.player_id pc <> Session.player_id s
     end ->
     run (POST_reserve env req) w =
       (Responded NOT_ALLOWED, w, [SelectSession token; SelectChallenge (trim id)])).
Proof.
  unfold carries, namesRoom, namesChallenge, malformedCommit, malformedReserve,
    pathOf, mimeOf.
  intros Hs; split; [|split].
  - intros req code p found Htok Hcode Hp Hroom Hforeign.
    unfold POST_end; unfold_handler.
    rewrite Htok, Hcode; cbn.
    rewrite Hs; cbn. rewrite Hp; cbn. rewrite Hroom; cbn.
    destruct found as [room|]; cbn; [|reflexivity].
    apply String.eqb_neq in Hforeign; rewrite Hforeign; reflexivity.
  - intros req id found Htok Hid Hwell Hpc Hother.
    rewrite Hid in Hwell.
    destruct (isEmpty _) eqn:Hpath; [discriminate|].
    destruct (badMime _) eqn:Hmime; [discriminate|].
    unfold POST_commit; unfold_handler.
    rewrite Htok, Hid, Hpath, Hmime; cbn.
    rewrite Hs, Hpc; cbn.
    destruct found as [pc|]; cbn; [|reflexivity].
    apply String.eqb_neq in Hother; rewrite Hother; reflexivity.
  - intros req id found Htok Hid Hwell Hpc Hother.
    rewrite Hid in Hwell.
    destruct (badMime _) eqn:Hmime; [discriminate|].
    unfold POST_reserve; unfold_handler.
    rewrite Htok, Hid, Hmime; cbn.
    rewrite Hs, Hpc; cbn.
    destruct found as [pc|]; cbn; [|reflexivity].
    apply String.eqb_neq in Hother; rewrite Hother; reflexivity.
Qed.

(** Carol asks to end Alice's room and a room that does not exist, to commit
    media for Alice's challenge, and to reserve an upload for a challenge
    that does not exist. *)
Lemma missing_or_foreign_target_witness :
  let foreignRoom := Sample.endRequest (Some "token-carol") "ABCD" in
  let missingRoom := Sample.endRequest (Some "token-carol") "NONE" in
  let commit := Sample.commitRequest (Some "token-carol") Sample.challengeA
                  (Sample.carol ++ "/clip.mp4") "video/mp4" in
  let reserve := Sample.reserveRequest (Some "token-carol")
                   "99999999-9999-4999-8999-999999999999" "video/mp4" in
  response (run (POST_end Sample.env foreignRoom) Sample.store) = Responded NOT_ALLOWED /\
  response (run (POST_end Sample.env missingRoom) Sample.store) = Responded ROOM_NOT_FOUND /\
  response (run (POST_commit Sample.env commit) Sample.store) = Responded NOT_ALLOWED /\
  response (run (POST_reserve Sample.env reserve) Sample.store) = Responded NOT_ALLOWED.
Proof.
  cbv zeta.
  destruct (missing_or_foreign_target Sample.env Sample.store "token-carol"
              Sample.carolSession eq_refl) as (Hend & Hcommit & Hreserve).
  pose proof (Hend (Sample.endRequest (Some "token-carol") "ABCD") "ABCD"
                Sample.carolPlayer (Some Sample.roomABCD)) as HE1.
  pose proof (Hend (Sample.endRequest (Some "token-carol") "NONE") "NONE"
                Sample.carolPlayer None) as HE2.
  pose proof (Hcommit (Sample.commitRequest (Some "token-carol") Sample.challengeA
                         (Sample.carol ++ "/clip.mp4") "video/mp4")
                Sample.challengeA (Some Sample.aliceChallenge)) as HC.
  pose proof (Hreserve (Sample.reserveRequest (Some "token-carol")
                          "99999999-9999-4999-8999-999999999999" "video/mp4")
                "99999999-9999-4999-8999-999999999999" None) as HR.
  rewrite HE1, HE2, HC, HR.
  - repeat split.
  - reflexivity.
  - reflexivity.
  - reflexivity.
  - reflexivity.
  - exact I.
  - reflexivity.
  - reflexivity.
  - reflexivity.
  - reflexivity.
  - vm_compute; discriminate.
  - reflexivity.
  - reflexivity.
  - reflexivity.
  - reflexivity.
  - exact I.
  - reflexivity.
  - reflexivity.
  - reflexivity.
  - reflexivity.
  - vm_compute; discriminate.
Defined.

(** C2, as stated, fails.  Carol asks to end room ABCD, which exists and is
    Alice's, and room NONE, which does not exist: the answers differ (403
    NOT_ALLOWED, 404 ROOM_NOT_FOUND), so the first is no not-found signal.
    She then asks to commit media for a challenge that does not exist: the
    answer is 403 NOT_ALLOWED, no not-found signal either. *)
Lemma end_tells_missing_from_foreign :
  let foreign := Sample.endRequest (Some "token-carol") "ABCD" in
  let missing := Sample.endRequest (Some "token-carol") "NONE" in
  let nowhere := Sample.commitRequest (Some "token-carol")
                   "99999999-9999-4999-8999-999999999999"
                   (Sample.carol ++ "/clip.mp4") "video/mp4" in
  response (run (POST_end Sample.env foreign) Sample.store) = Responded NOT_ALLOWED /\
  response (run (POST_end Sample.env missing) Sample.store) = Responded ROOM_NOT_FOUND /\
  ~ AsStated.roomCollapsed Sample.env Sample.store foreign /\
  response (run (POST_commit Sample.env nowhere) Sample.store) = Responded NOT_ALLOWED /\
  ~ AsStated.challengeCollapsed Sample.env Sample.store nowhere.
Proof.
  cbv zeta.
  split; [reflexivity|]; split; [reflexivity|]; split; [|split; [reflexivity|]].
  - intros H.
    destruct (H "token-carol" "ABCD" Sample.carolSession Sample.carolPlayer
                (Some Sample.roomABCD)) as (r & Hr & Hstatus).
    + reflexivity.
    + reflexivity.
    + reflexivity.
    + reflexivity.
    + reflexivity.
    + vm_compute; discriminate.
    + vm_compute in Hr; inversion Hr; subst r; discriminate.
  - intros H.
    destruct (H "token-carol" "99999999-9999-4999-8999-999999999999"
                Sample.carolSession None) as (r & Hr & Hstatus).
    + reflexivity.
    + reflexivity.
    + reflexivity.
    + reflexivity.
    + exact I.
    + vm_compute in Hr; inversion Hr; subst r; discriminate.
Qed.

(** * Unknown callers, and the order of the checks *)

(** C6, as amended.  A request without a session token is answered with
    UNAUTHORIZED by every handler, whatever its body, before any call.  A
    request whose token the session store has no row for is answered with
    UNAUTHORIZED -- the same response, after the one session lookup -- only
    when its body passes the input checks of the handler; a body that fails
    them is answered with the INVALID_* response of the check, before the
    session is looked up. *)
Theorem unknown_caller (env : Env) (w : World) (req : Request) :
  unknownCaller env w req ->
  let verdict (malformed : option Response) :=
    match presentToken (sessionToken req) with
    | None => (Responded UNAUTHORIZED, w, [])
    | Some token =>
        match malformed with
        | Some r => (Responded r, w, [])
        | None => (Responded UNAUTHORIZED, w, [SelectSession token])
        end
    end in
  run (POST_reserve env req) w = verdict (malformedReserve env req) /\
  run (POST_commit env req) w = verdict (malformedCommit env req) /\
  run (POST_end env req) w = verdict (malformedEnd env req).
Proof.
  unfold unknownCaller, malformedReserve, malformedCommit, malformedEnd,
    pathOf, mimeOf.
  intros Hunknown; cbv zeta.
  unfold POST_reserve, POST_commit, POST_end; unfold_handler.
  destruct (presentToken (sessionToken req)) as [token|]; cbn;
    [|repeat split].
  split; [|split].
  - destruct (narrow (validateUuid env) _); cbn; [|reflexivity].
    destruct (badMime _); cbn; [reflexivity|].
    rewrite Hunknown; reflexivity.
  - destruct (narrow (validateUuid env) _); cbn; [|reflexivity].
    destruct (isEmpty _); cbn; [reflexivity|].
    destruct (badMime _); cbn; [reflexivity|].
    rewrite Hunknown; reflexivity.
  - destruct (narrow (validateRoomCode env) _); cbn; [|reflexivity].
    rewrite Hunknown; reflexivity.
Qed.

(** A token no session has, on a well-formed commit request. *)
Lemma unknown_caller_witness :
  let req := Sample.commitRequest (Some "token-mallory") Sample.challengeA
               (Sample.alice ++ "/clip.mp4") "video/mp4" in
  run (POST_commit Sample.env req) Sample.store
  = (Responded UNAUTHORIZED, Sample.store, [SelectSession "token-mallory"]).
Proof.
  cbv zeta.
  pose proof (unknown_caller Sample.env Sample.store
                (Sample.commitRequest (Some "token-mallory") Sample.challengeA
                   (Sample.alice ++ "/clip.mp4") "video/mp4")) as H.
  cbv zeta in H.
  destruct H as (_ & Hcommit & _).
  - reflexivity.
  - exact Hcommit.
Defined.

(** C6, as stated, fails: a token no session has, on a commit request for a
    PDF, is answered with INVALID_MIME, not with UNAUTHORIZED. *)
Lemma unknown_token_bad_body_counterexample :
  let req := Sample.commitRequest (Some "token-mallory") Sample.challengeA
               (Sample.alice ++ "/paper.pdf") "application/pdf" in
  unknownCaller Sample.env Sample.store req /\
  response (run (POST_commit Sample.env req) Sample.store) = Responded INVALID_MIME /\
  ~ AsStated.unknownIsUnauthorized Sample.env Sample.store req.
Proof.
  cbv zeta; split; [reflexivity|]; split; [reflexivity|].
  intros H.
  destruct H as (_ & Hcommit & _).
  - reflexivity.
  - vm_compute in Hcommit; discriminate.
Qed.

(** C8, as amended.  Upload reserve and upload commit answer a request whose
    mime is empty or starts with neither ["image/"] nor ["video/"] before
    any session lookup, challenge lookup or storage call, and write nothing.
    The answer is INVALID_MIME when the request carries a session token and
    a well-formed challenge id (and, for commit, a path that is not empty);
    the checks that come first answer otherwise: UNAUTHORIZED without a
    token, INVALID_PLAYER_CHALLENGE_ID for a malformed id, INVALID_PATH for
    commit with an empty path. *)
Theorem bad_mime_first (env : Env) (w : World) (req : Request) :
  badMime (mimeOf req) = true ->
  let wellFormedId :=
    narrow (validateUuid env) (member (json req) "playerChallengeId") in
  run (POST_reserve env req) w =
    (Responded match presentToken (sessionToken req), wellFormedId with
               | None, _ => UNAUTHORIZED
               | Some _, None => INVALID_PLAYER_CHALLENGE_ID
               | Some _, Some _ => INVALID_MIME
               end, w, []) /\
  run (POST_commit env req) w =
    (Responded match presentToken (sessionToken req), wellFormedId with
               | None, _ => UNAUTHORIZED
               | Some _, None => INVALID_PLAYER_CHALLENGE_ID
               | Some _, Some _ =>
                   if isEmpty (pathOf req) then INVALID_PATH else INVALID_MIME
               end, w, []).
Proof.
  unfold pathOf, mimeOf; intros Hmime; cbv zeta.
  unfold POST_reserve, POST_commit; unfold_handler.
  destruct (presentToken (sessionToken req)); cbn; [|split; reflexivity].
  destruct (narrow (validateUuid env) _); cbn; [|split; reflexivity].
  rewrite Hmime; cbn.
  destruct (isEmpty _); cbn; split; reflexivity.
Qed.

(** Alice asks to reserve an upload of a PDF for her challenge. *)
Lemma bad_mime_first_witness :
  let req := Sample.reserveRequest (Some "token-alice") Sample.challengeA
               "application/pdf" in
  run (POST_reserve Sample.env req) Sample.store
  = (Responded INVALID_MIME, Sample.store, []).
Proof.
  cbv zeta.
  pose proof (bad_mime_first Sample.env Sample.store
                (Sample.reserveRequest (Some "token-alice") Sample.challengeA
                   "application/pdf")) as H.
  cbv zeta in H.
  destruct H as [Hreserve _].
  - reflexivity.
  - exact Hreserve.
Defined.

(** C8, as stated, fails: a reserve request for a PDF is answered with
    UNAUTHORIZED when it carries no session token and with
    INVALID_PLAYER_CHALLENGE_ID when its id is no UUID, and a commit request
    for a PDF with an empty path is answered with INVALID_PATH; these checks
    come before the one on the mime. *)
Lemma bad_mime_other_answer_counterexample :
  let anonymous := Sample.reserveRequest None Sample.challengeA "application/pdf" in
  let reserve := Sample.reserveRequest (Some "token-alice") "not-a-uuid"
                   "application/pdf" in
  let commit := Sample.commitRequest (Some "token-alice") Sample.challengeA ""
                  "application/pdf" in
  (run (POST_reserve Sample.env anonymous) Sample.store
   = (Responded UNAUTHORIZED, Sample.store, []) /\
   ~ AsStated.badMimeIsInvalidMime Sample.env Sample.store anonymous) /\
  (run (POST_reserve Sample.env reserve) Sample.store
   = (Responded INVALID_PLAYER_CHALLENGE_ID, Sample.store, []) /\
   ~ AsStated.badMimeIsInvalidMime Sample.env Sample.store reserve) /\
  (run (POST_commit Sample.env commit) Sample.store
   = (Responded INVALID_PATH, Sample.store, []) /\
   ~ AsStated.badMimeIsInvalidMime Sample.env Sample.store commit).
Proof.
  cbv zeta.
  split; [|split]; (split; [reflexivity|]); intros H.
  - destruct H as [Hreserve _]; [reflexivity|].
    vm_compute in Hreserve; discriminate.
  - destruct H as [Hreserve _]; [reflexivity|].
    vm_compute in Hreserve; discriminate.
  - destruct H as [_ Hcommit]; [reflexivity|].
    vm_compute in Hcommit; discriminate.
Qed.

(** * The routes together *)

(** X1.  Whatever the request and the store, a response of any of the three
    routes has a status that agrees with its payload: 200 with [ok: true],
    one of 400, 401, 403, 404 and 500 with [ok: false], and a [hint] only
    on a 500. *)
Theorem responses_coherent (route : Route) (env : Env) (req : Request)
    (w : World) (r : Response) :
  response (run (POST route env req) w) = Responded r ->
  coherent r = true.
Proof.
  destruct route; unfold POST, POST_end, POST_commit, POST_reserve;
    unfold_handler; repeat (case_goal; cbn);
    intros H; inversion H; reflexivity.
Qed.

(** Bob's attempt to end Alice's room. *)
Lemma responses_coherent_witness :
  coherent NOT_ALLOWED = true.
Proof.
  apply (responses_coherent EndRoom Sample.env
           (Sample.endRequest (Some "token-bob") "ABCD") Sample.store).
  reflexivity.
Defined.

(** X3.  Upload reserve throws, instead of responding, exactly when the
    request has passed every check and the time block of the challenge does
    not parse as a date; the exception is the [RangeError] of
    [toISOString], no storage call has been made and nothing is written. *)
Theorem reserve_throws_on_bad_date (env : Env) (req : Request) (w : World) :
  ((exists e, response (run (POST_reserve env req) w) = Threw e) <->
   (exists token id s pc,
      ownerRequest env w req token id s pc /\
      badMime (mimeOf req) = false /\
      toISOString env (Challenge.block_start pc) = None)) /\
  (forall e, response (run (POST_reserve env req) w) = Threw e ->
     e = "RangeError: Invalid time value" /\
     filter isStorageCall (calls (run (POST_reserve env req) w)) = [] /\
     world (run (POST_reserve env req) w) = w).
Proof.
  unfold ownerRequest, carries, namesChallenge, mimeOf.
  unfold POST_reserve; unfold_handler.
  split; [split|].
  - intros [e H].
    repeat case_first; cbn in *; try discriminate.
    apply negb_false_iff, String.eqb_eq in Heqb0.
    do 4 eexists; repeat split; eauto.
  - intros (token & id & s & pc & (Htok & Hid & Hs & Hpc & Hown) & Hmime & Hiso).
    rewrite Htok, Hid, Hmime; cbn.
    rewrite Hs, Hpc, Hown, String.eqb_refl, Hiso; cbn.
    eexists; reflexivity.
  - intros e H.
    repeat case_first; cbn in *; try discriminate.
    inversion H; repeat split.
Qed.

(** Alice reserves an upload for a challenge whose time block reads
    ["yesterday"]. *)
Lemma reserve_throws_on_bad_date_witness :
  run (POST_reserve Sample.env
         (Sample.reserveRequest (Some "token-alice") Sample.challengeA "image/png"))
      Scenario.brokenStore
  = (Threw "RangeError: Invalid time value", Scenario.brokenStore,
     [SelectSession "token-alice"; SelectChallenge Sample.challengeA]).
Proof.
  destruct (reserve_throws_on_bad_date Sample.env
              (Sample.reserveRequest (Some "token-alice") Sample.challengeA "image/png")
              Scenario.brokenStore) as [_ H].
  destruct (H "RangeError: Invalid time value") as (_ & _ & _); reflexivity.
Defined.

(** X4.  A request that does not succeed writes nothing: when a route ends
    in a failure response or in an exception, the store is as it was. *)
Theorem failure_writes_nothing (route : Route) (env : Env) (req : Request)
    (w : World) :
  succeeded (response (run (POST route env req) w)) = false ->
  world (run (POST route env req) w) = w.
Proof.
  destruct route; unfold POST, POST_end, POST_commit, POST_reserve;
    unfold_handler; repeat (case_goal; cbn);
    intros H; try reflexivity; discriminate.
Qed.

(** The store refuses the update of Alice's commit. *)
Lemma failure_writes_nothing_witness :
  let env := mkEnv Sample.validateUuid Sample.validateRoomCode (nowIso Sample.env)
               (toISOString Sample.env) (getPublicUrl Sample.env)
               (createSignedUploadUrl Sample.env)
               (fun c => if isWrite c then Some "deadlock detected" else None) in
  let req := Sample.commitRequest (Some "token-alice") Sample.challengeA
               (Sample.alice ++ "/clip.mp4") "video/mp4" in
  response (run (POST CommitUpload env req) Sample.store)
  = Responded (INTERNAL "deadlock detected") /\
  world (run (POST CommitUpload env req) Sample.store) = Sample.store.
Proof.
  cbv zeta; split; [reflexivity|].
  apply (failure_writes_nothing CommitUpload).
  reflexivity.
Defined.

(** X5.  Upload reserve never writes to the store, whatever it answers. *)
Theorem reserve_never_writes (env : Env) (req : Request) (w : World) :
  world (run (POST_reserve env req) w) = w /\
  filter isWrite (calls (run (POST_reserve env req) w)) = [].
Proof.
  unfold POST_reserve; unfold_handler;
    repeat (case_goal; cbn); split; reflexivity.
Qed.

(** ** What a run leaves of the store *)

Lemma updateWhere_keeps {A B : Type} (matches : A -> bool) (f : A -> A)
    (field : A -> B) (rows : list A) :
  (forall row, field (f row) = field row) ->
  map field (updateWhere matches f rows) = map field rows.
Proof.
  intros Hkeep; unfold updateWhere; rewrite map_map.
  apply map_ext; intros row.
  destruct (matches row); [apply Hkeep | reflexivity].
Qed.

Lemma updateWhere_rows {A : Type} (matches : A -> bool) (f : A -> A)
    (rows : list A) (row : A) :
  In row (updateWhere matches f rows) ->
  In row rows \/ exists old, In old rows /\ matches old = true /\ row = f old.
Proof.
  unfold updateWhere; intros H.
  apply in_map_iff in H; destruct H as (old & E & Hin).
  destruct (matches old) eqn:Hm; subst row; [right; exists old|left]; auto.
Qed.

(** X6.  End, whatever it answers, touches nothing but the status and the end
    of rooms: sessions, players, memberships and challenges are as they
    were, the rooms keep their places, ids and codes, and a room that has
    changed is ended as of now.  No run of end reopens a room or takes one
    away. *)
Theorem end_frame (env : Env) (req : Request) (w : World) :
  let w' := world (run (POST_end env req) w) in
  player_sessions w' = player_sessions w /\
  players w' = players w /\
  room_members w' = room_members w /\
  player_challenges w' = player_challenges w /\
  map Room.id (rooms w') = map Room.id (rooms w) /\
  map Room.code (rooms w') = map Room.code (rooms w) /\
  (forall room, In room (rooms w') ->
     In room (rooms w) \/
     (Room.status room = ended /\ Room.ends_at room = Some (nowIso env))).
Proof.
  cbv zeta.
  assert (Hcases : world (run (POST_end env req) w) = w \/
                   exists id, world (run (POST_end env req) w)
                              = endRoom id (nowIso env) w).
  { unfold POST_end; unfold_handler; repeat (case_goal; cbn); eauto. }
  destruct Hcases as [->|[id ->]].
  - repeat split; auto.
  - unfold endRoom; simpl.
    repeat split;
      try (apply updateWhere_keeps; intros row; reflexivity).
    intros room Hin.
    apply updateWhere_rows in Hin.
    destruct Hin as [Hin|(old & _ & _ & ->)]; [left; exact Hin|right; split; reflexivity].
Qed.

(** X7.  Upload commit, whatever it answers, touches nothing but the four
    media fields of challenges: sessions, players, rooms and memberships are
    as they were, and the challenges keep their places, ids, owners and
    time blocks.  No run of a commit moves a challenge to another player. *)
Theorem commit_frame (env : Env) (req : Request) (w : World) :
  let w' := world (run (POST_commit env req) w) in
  player_sessions w' = player_sessions w /\
  players w' = players w /\
  rooms w' = rooms w /\
  room_members w' = room_members w /\
  map Challenge.id (player_challenges w') = map Challenge.id (player_challenges w) /\
  map Challenge.player_id (player_challenges w')
  = map Challenge.player_id (player_challenges w) /\
  map Challenge.block_start (player_challenges w')
  = map Challenge.block_start (player_challenges w).
Proof.
  cbv zeta.
  assert (Hcases : world (run (POST_commit env req) w) = w \/
                   exists id url ty mime at_,
                     world (run (POST_commit env req) w)
                     = recordMedia id url ty mime at_ w).
  { unfold POST_commit; unfold_handler; repeat (case_goal; cbn); eauto 8. }
  destruct Hcases as [->|(id & url & ty & mime & at_ & ->)].
  - repeat split; auto.
  - unfold recordMedia; simpl.
    repeat split; apply updateWhere_keeps; intros row; reflexivity.
Qed.

(** X8.  Upload commit tries to write only for the owner: every write in the
    call log of a run -- also of a run the store then fails -- is the update
    of the challenge the request names, made for the player of the session,
    who owns it, with a path under that player's own prefix. *)
Theorem commit_writes_for_owner_only (env : Env) (req : Request) (w : World)
    (c : Call) :
  In c (calls (run (POST_commit env req) w)) ->
  isWrite c = true ->
  exists token id s pc,
    ownerRequest env w req token id s pc /\
    startsWith (pathOf req) (Session.player_id s ++ "/") = true /\
    c = UpdateChallenge (Challenge.id pc) (getPublicUrl env BUCKET (pathOf req))
          (mediaTypeFromMime (mimeOf req)) (mimeOf req) (nowIso env).
Proof.
  unfold ownerRequest, carries, namesChallenge, pathOf, mimeOf.
  unfold POST_commit; unfold_handler.
  intros Hin Hw.
  repeat case_first; cbn in *;
    repeat match goal with
    | H : _ \/ _ |- _ => destruct H
    | H : False |- _ => contradiction
    end; subst; try discriminate.
  all: apply negb_false_iff in Heqb1, Heqb2; apply String.eqb_eq in Heqb1.
  all: do 4 eexists; repeat split; eauto.
Qed.

(** The store refuses the update of Alice's commit: the update was tried, and
    it was hers to try. *)
Lemma commit_writes_for_owner_only_witness :
  let env := mkEnv Sample.validateUuid Sample.validateRoomCode (nowIso Sample.env)
               (toISOString Sample.env) (getPublicUrl Sample.env)
               (createSignedUploadUrl Sample.env)
               (fun c => if isWrite c then Some "deadlock detected" else None) in
  let path := Sample.alice ++ "/clip.mp4" in
  let req := Sample.commitRequest (Some "token-alice") Sample.challengeA path "video/mp4" in
  let c := UpdateChallenge Sample.challengeA
             ("https://project.supabase.co/storage/v1/object/public/retos/" ++ path)
             video "video/mp4" "2025-03-01T18:30:00.000Z" in
  In c (calls (run (POST_commit env req) Sample.store)) /\
  exists s, startsWith path (Session.player_id s ++ "/") = true.
Proof.
  cbv zeta.
  assert (Hin : In (UpdateChallenge Sample.challengeA
             ("https://project.supabase.co/storage/v1/object/public/retos/"
              ++ Sample.alice ++ "/clip.mp4")
             video "video/mp4" "2025-03-01T18:30:00.000Z")
            (calls (run (POST_commit
               (mkEnv Sample.validateUuid Sample.validateRoomCode (nowIso Sample.env)
                  (toISOString Sample.env) (getPublicUrl Sample.env)
                  (createSignedUploadUrl Sample.env)
                  (fun c => if isWrite c then Some "deadlock detected" else None))
               (Sample.commitRequest (Some "token-alice") Sample.challengeA
                  (Sample.alice ++ "/clip.mp4") "video/mp4")) Sample.store))).
  { vm_compute; auto 6. }
  split; [exact Hin|].
  destruct (commit_writes_for_owner_only _ _ _ _ Hin eq_refl)
    as (token & id & s & pc & _ & Hpre & _).
  exists s; exact Hpre.
Defined.

(** X9.  End tries to write only for the owner: every write in the call log
    of a run is the update that ends the room the request names, made for a
    player of that room whose looked-up role is ["owner"]. *)
Theorem end_writes_for_owner_only (env : Env) (req : Request) (w : World)
    (c : Call) :
  In c (calls (run (POST_end env req) w)) ->
  isWrite c = true ->
  exists token code s p room,
    playerRequest env w req token code s p room /\
    Room.id room = Player.room_id p /\
    membershipRole env w room p = "owner" /\
    c = UpdateRoom (Room.id room) ended (nowIso env).
Proof.
  unfold playerRequest, carries, namesRoom, membershipRole.
  unfold POST_end; unfold_handler.
  intros Hin Hw.
  repeat case_first; cbn in *;
    repeat match goal with
    | H : _ \/ _ |- _ => destruct H
    | H : False |- _ => contradiction
    end; subst; try discriminate.
  all: apply negb_false_iff, String.eqb_eq in Heqb, Heqb0.
  all: do 5 eexists; repeat split; eauto.
Qed.

(** Carol ends her room. *)
Lemma end_writes_for_owner_only_witness :
  let c := UpdateRoom "room-2" ended "2025-03-01T18:30:00.000Z" in
  In c (calls (run (POST_end Sample.env (Sample.endRequest (Some "token-carol") "WXYZ"))
                   Sample.store)) /\
  exists room p, membershipRole Sample.env Sample.store room p = "owner".
Proof.
  cbv zeta.
  assert (Hin : In (UpdateRoom "room-2" ended "2025-03-01T18:30:00.000Z")
                  (calls (run (POST_end Sample.env
                     (Sample.endRequest (Some "token-carol") "WXYZ")) Sample.store))).
  { vm_compute; auto 6. }
  split; [exact Hin|].
  destruct (end_writes_for_owner_only _ _ _ _ Hin eq_refl)
    as (token & code & s & p & room & _ & _ & Hrole & _).
  exists room, p; exact Hrole.
Defined.

(** ** One request after another *)

Lemma filter_updateWhere {A : Type} (keep matches : A -> bool) (f : A -> A)
    (rows : list A) :
  (forall row, keep (f row) = keep row) ->
  filter keep (updateWhere matches f rows) = updateWhere matches f (filter keep rows).
Proof.
  intros Hkeep; unfold updateWhere.
  induction rows as [|row rows IH]; simpl; [reflexivity|].
  destruct (matches row) eqn:Hm; rewrite ?Hkeep;
    destruct (keep row); simpl; rewrite ?Hm, IH; reflexivity.
Qed.

Lemma updateWhere_twice {A : Type} (matches : A -> bool) (f g : A -> A)
    (rows : list A) :
  (forall row, matches (f row) = matches row) ->
  (forall row, g (f row) = g row) ->
  updateWhere matches g (updateWhere matches f rows) = updateWhere matches g rows.
Proof.
  intros Hm Hg; unfold updateWhere; rewrite map_map.
  apply map_ext; intros row.
  destruct (matches row) eqn:E; [rewrite Hm, E; apply Hg | rewrite E; reflexivity].
Qed.

Lemma answer_row (env : Env) {A : Type} (c : Call) (rows : list A) (row : A) :
  answer env c rows = DbData (Some row) -> rows = [row].
Proof.
  unfold answer; destruct (dbFault env c); [discriminate | apply maybeSingle_row].
Qed.

Lemma own_path_not_empty (path player_id : string) :
  startsWith path (player_id ++ "/") = true -> isEmpty path = false.
Proof.
  intros H; apply startsWith_inv in H; destruct H as [rest ->].
  rewrite append_associative; apply append_not_empty.
Qed.

(** The room a request names, after an end of that room. *)
Lemma lookupRoom_ended (env env' : Env) (w : World) (code at_ : string) (room : Room.t) :
  faultless env' ->
  lookupRoom env w code = DbData (Some room) ->
  lookupRoom env' (endRoom (Room.id room) at_ w) code
  = DbData (Some (setEnded ended at_ room)).
Proof.
  intros Hok Hroom; apply answer_row in Hroom.
  unfold lookupRoom, answer, endRoom; rewrite Hok; simpl.
  rewrite filter_updateWhere by (intros row; reflexivity).
  rewrite Hroom; simpl; rewrite String.eqb_refl; reflexivity.
Qed.

(** The challenge a request names, after a commit for that challenge. *)
Lemma lookupChallenge_recorded (env env' : Env) (w : World) (id url mime at_ : string)
    (ty : MediaType) (pc : Challenge.t) :
  faultless env' ->
  lookupChallenge env w id = DbData (Some pc) ->
  lookupChallenge env' (recordMedia (Challenge.id pc) url ty mime at_ w) id
  = DbData (Some (setMedia url ty mime at_ pc)).
Proof.
  intros Hok Hpc; apply answer_row in Hpc.
  unfold lookupChallenge, answer, recordMedia; rewrite Hok; simpl.
  rewrite filter_updateWhere by (intros row; reflexivity).
  rewrite Hpc; simpl; rewrite String.eqb_refl; reflexivity.
Qed.

(** X10.  End can be asked again: after the owner has ended the room, the
    same request at a later reading of the clock succeeds again and leaves
    the store as if it had been the only end -- the room ended as of the
    later time.  At the same reading of the clock, the second end changes
    nothing. *)
Theorem end_again (env : Env) (w : World) (req : Request)
    (token code later : string) (s : Session.t) (p : Player.t) (room : Room.t) :
  playerRequest env w req token code s p room ->
  Room.id room = Player.room_id p ->
  membershipRole env w room p = "owner" ->
  faultless env ->
  let first := run (POST_end env req) w in
  let log := [SelectSession token; SelectPlayer (Session.player_id s); SelectRoom code;
              SelectMember (Room.id room) (Player.id p);
              UpdateRoom (Room.id room) ended later] in
  world first = endRoom (Room.id room) (nowIso env) w /\
  run (POST_end (atTime env later) req) (world first)
  = (Responded (success (Ended later)), endRoom (Room.id room) later w, log) /\
  endRoom (Room.id room) (nowIso env) (world first) = world first.
Proof.
  intros Hreq Hroom Hrole Hok; cbv zeta.
  pose proof (end_runs env req w token code s p room Hreq) as Hfirst.
  cbv zeta in Hfirst.
  rewrite Hroom, Hrole, String.eqb_refl, Hok in Hfirst; simpl in Hfirst.
  rewrite <- Hroom in Hfirst.
  rewrite Hfirst; unfold world; simpl.
  split; [reflexivity|].
  assert (Htwice : forall t1 t2,
            endRoom (Room.id room) t2 (endRoom (Room.id room) t1 w)
            = endRoom (Room.id room) t2 w).
  { intros t1 t2; unfold endRoom, withRooms; simpl.
    rewrite updateWhere_twice by (intros row; reflexivity); reflexivity. }
  split; [|apply Htwice].
  destruct Hreq as (Htok & Hcode & Hs & Hp & Hfound).
  assert (Hok' : faultless (atTime env later)) by exact Hok.
  assert (Hreq' : playerRequest (atTime env later)
                    (endRoom (Room.id room) (nowIso env) w) req token code s p
                    (setEnded ended (nowIso env) room)).
  { repeat split; try assumption.
    apply (lookupRoom_ended env); assumption. }
  pose proof (end_runs _ req _ token code s p _ Hreq') as Hsecond.
  cbv zeta in Hsecond.
  change (membershipRole (atTime env later) (endRoom (Room.id room) (nowIso env) w)
            (setEnded ended (nowIso env) room) p)
    with (membershipRole env w room p) in Hsecond.
  change (Room.id (setEnded ended (nowIso env) room)) with (Room.id room) in Hsecond.
  change (nowIso (atTime env later)) with later in Hsecond.
  rewrite Hroom, Hrole, String.eqb_refl in Hsecond; simpl in Hsecond.
  rewrite <- Hroom, Hok, Htwice in Hsecond.
  exact Hsecond.
Qed.

(** Carol ends her room at 18:30 and again at 19:00. *)
Lemma end_again_witness :
  let req := Sample.endRequest (Some "token-carol") "WXYZ" in
  rooms (world (run (POST_end (atTime Sample.env "2025-03-01T19:00:00.000Z") req)
                    (world (run (POST_end Sample.env req) Sample.store))))
  = [Sample.roomABCD; Room.mk "room-2" "WXYZ" ended (Some "2025-03-01T19:00:00.000Z")].
Proof.
  cbv zeta.
  pose proof (end_again Sample.env Sample.store
                (Sample.endRequest (Some "token-carol") "WXYZ")
                "token-carol" "WXYZ" "2025-03-01T19:00:00.000Z"
                Sample.carolSession Sample.carolPlayer Sample.roomWXYZ) as H.
  cbv zeta in H.
  destruct H as (_ & Hsecond & _).
  - repeat split.
  - reflexivity.
  - reflexivity.
  - intros c; reflexivity.
  - rewrite Hsecond; reflexivity.
Defined.

(** X11.  The last commit wins: after a commit by the owner, a second commit
    by the owner for the same challenge, with a path and a mime of its own,
    succeeds and leaves the store as if it had been the only commit. *)
Theorem commit_again (env : Env) (w : World) (req1 req2 : Request)
    (token1 id1 token2 id2 later : string) (s1 s2 : Session.t) (pc : Challenge.t) :
  ownerRequest env w req1 token1 id1 s1 pc ->
  ownerRequest env w req2 token2 id2 s2 pc ->
  badMime (mimeOf req1) = false ->
  badMime (mimeOf req2) = false ->
  startsWith (pathOf req1) (Session.player_id s1 ++ "/") = true ->
  startsWith (pathOf req2) (Session.player_id s2 ++ "/") = true ->
  faultless env ->
  let first := run (POST_commit env req1) w in
  let url := getPublicUrl env BUCKET (pathOf req2) in
  let ty := mediaTypeFromMime (mimeOf req2) in
  let log := [SelectSession token2; SelectChallenge (trim id2);
              GetPublicUrl BUCKET (pathOf req2);
              UpdateChallenge (Challenge.id pc) url ty (mimeOf req2) later] in
  succeeded (response first) = true /\
  run (POST_commit (atTime env later) req2) (world first)
  = (Responded (success (Media url (mimeOf req2) ty)),
     recordMedia (Challenge.id pc) url ty (mimeOf req2) later w, log).
Proof.
  intros Hown1 Hown2 Hmime1 Hmime2 Hpre1 Hpre2 Hok; cbv zeta.
  pose proof (commit_runs env req1 w token1 id1 s1 pc Hown1
                (own_path_not_empty _ _ Hpre1) Hmime1 Hpre1) as Hfirst.
  cbv zeta in Hfirst; rewrite Hok in Hfirst.
  rewrite Hfirst; unfold response, world; simpl.
  split; [reflexivity|].
  destruct Hown2 as (Htok & Hid & Hs & Hpc & Howner).
  set (w1 := recordMedia (Challenge.id pc) (getPublicUrl env BUCKET (pathOf req1))
               (mediaTypeFromMime (mimeOf req1)) (mimeOf req1) (nowIso env) w).
  set (pc1 := setMedia (getPublicUrl env BUCKET (pathOf req1))
                (mediaTypeFromMime (mimeOf req1)) (mimeOf req1) (nowIso env) pc).
  assert (Hok' : faultless (atTime env later)) by exact Hok.
  assert (Hown' : ownerRequest (atTime env later) w1 req2 token2 id2 s2 pc1).
  { repeat split; try assumption.
    apply (lookupChallenge_recorded env); assumption. }
  pose proof (commit_runs _ req2 _ token2 id2 s2 _ Hown'
                (own_path_not_empty _ _ Hpre2) Hmime2 Hpre2) as Hsecond.
  cbv zeta in Hsecond; rewrite Hok' in Hsecond.
  rewrite Hsecond.
  f_equal.
  unfold w1, pc1, recordMedia, withChallenges; simpl.
  rewrite updateWhere_twice by (intros row; reflexivity); reflexivity.
Qed.

(** Bob, whose challenge holds a picture, commits a video and then another
    picture. *)
Lemma commit_again_witness :
  let video1 := Sample.commitRequest (Some "token-bob") Sample.challengeB
                  (Sample.bob ++ "/clip.mp4") "video/mp4" in
  let picture := Sample.commitRequest (Some "token-bob") Sample.challengeB
                   (Sample.bob ++ "/shot.png") "image/png" in
  let later := "2025-03-01T19:00:00.000Z" in
  world (run (POST_commit (atTime Sample.env later) picture)
             (world (run (POST_commit Sample.env video1) Sample.store)))
  = world (run (POST_commit (atTime Sample.env later) picture) Sample.store).
Proof.
  cbv zeta.
  pose proof (commit_again Sample.env Sample.store
                (Sample.commitRequest (Some "token-bob") Sample.challengeB
                   (Sample.bob ++ "/clip.mp4") "video/mp4")
                (Sample.commitRequest (Some "token-bob") Sample.challengeB
                   (Sample.bob ++ "/shot.png") "image/png")
                "token-bob" Sample.challengeB "token-bob" Sample.challengeB
                "2025-03-01T19:00:00.000Z"
                Sample.bobSession Sample.bobSession Sample.bobChallenge) as H.
  cbv zeta in H.
  destruct H as (_ & Hsecond).
  - repeat split.
  - repeat split.
  - reflexivity.
  - reflexivity.
  - reflexivity.
  - reflexivity.
  - intros c; reflexivity.
  - rewrite Hsecond; reflexivity.
Defined.

(** The path of a reserve lies under the prefix of its player. *)
Lemma storagePath_own (player_id iso id mime : string) :
  startsWith (storagePath player_id iso id mime) (player_id ++ "/") = true.
Proof.
  unfold storagePath; rewrite <- append_associative; apply startsWith_append.
Qed.

(** X12.  Reserve, then commit: the path a successful reserve has handed to
    the storage interface is a path the commit of the same caller for the
    same challenge accepts, and the url recorded is the public url of that
    path. *)
Theorem reserve_then_commit (env : Env) (w w' : World) (reserve commit : Request)
    (r : Response) (log : list Call) (path : string) :
  run (POST_reserve env reserve) w = (Responded r, w', log) ->
  ok r = true ->
  In (CreateSignedUploadUrl BUCKET path true) log ->
  sessionToken commit = sessionToken reserve ->
  member (json commit) "playerChallengeId" = member (json reserve) "playerChallengeId" ->
  mimeOf commit = mimeOf reserve ->
  pathOf commit = path ->
  faultless env ->
  response (run (POST_commit env commit) w')
  = Responded (success (Media (getPublicUrl env BUCKET path) (mimeOf reserve)
                              (mediaTypeFromMime (mimeOf reserve)))).
Proof.
  intros Hrun Hr Hin Htok Hid Hmime Hpath Hok.
  destruct (reserve_success_inv env reserve w w' r log Hrun Hr)
    as (token & id & s & pc & iso & Hown & Hgood & _ & -> & ->).
  simpl in Hin.
  destruct Hin as [Hin|[Hin|[Hin|[]]]]; try discriminate.
  injection Hin as Hderived.
  destruct Hown as (Hcarries & Hnames & Hs & Hpc & Howner).
  assert (Hown' : ownerRequest env w commit token id s pc).
  { unfold ownerRequest, carries, namesChallenge in *.
    rewrite Htok, Hid; auto. }
  assert (Hpre : startsWith (pathOf commit) (Session.player_id s ++ "/") = true)
    by (rewrite Hpath, <- Hderived; apply storagePath_own).
  rewrite <- Hmime in Hgood.
  pose proof (commit_runs env commit w token id s pc Hown'
                (own_path_not_empty _ _ Hpre) Hgood Hpre) as Hcommit.
  cbv zeta in Hcommit; rewrite Hok in Hcommit.
  rewrite Hcommit, Hpath, Hmime; reflexivity.
Qed.

(** Alice reserves an upload for her challenge and commits the path she was
    given. *)
Lemma reserve_then_commit_witness :
  let path := Sample.alice ++ "/2025-03-01T18:00:00.000Z/" ++ Sample.challengeA ++ ".mp4" in
  response (run (POST_commit Sample.env
                   (Sample.commitRequest (Some "token-alice") Sample.challengeA
                      path "video/mp4"))
                Sample.store)
  = Responded (success (Media
      ("https://project.supabase.co/storage/v1/object/public/retos/" ++ path)
      "video/mp4" video)).
Proof.
  cbv zeta.
  apply (reserve_then_commit Sample.env Sample.store Sample.store
           (Sample.reserveRequest (Some "token-alice") Sample.challengeA "video/mp4")
           (Sample.commitRequest (Some "token-alice") Sample.challengeA
              (Sample.alice ++ "/2025-03-01T18:00:00.000Z/" ++ Sample.challengeA
               ++ ".mp4") "video/mp4")
           (success (Upload
              (Sample.alice ++ "/2025-03-01T18:00:00.000Z/" ++ Sample.challengeA ++ ".mp4")
              "signed-token"
              ("https://project.supabase.co/storage/v1/object/upload/sign/retos/"
               ++ Sample.alice ++ "/2025-03-01T18:00:00.000Z/" ++ Sample.challengeA
               ++ ".mp4?token=signed-token")))
           (calls (run (POST_reserve Sample.env
              (Sample.reserveRequest (Some "token-alice") Sample.challengeA "video/mp4"))
              Sample.store))).
  - reflexivity.
  - reflexivity.
  - vm_compute; auto.
  - reflexivity.
  - reflexivity.
  - reflexivity.
  - reflexivity.
  - intros c; reflexivity.
Defined.

(** ** Folders of players *)

(** A path lies under the prefix of at most one id without ["/"]. *)
Lemma prefix_owner_unique (path a b : string) :
  occurs "/" a = false -> occurs "/" b = false ->
  startsWith path (a ++ "/") = true -> startsWith path (b ++ "/") = true ->
  a = b.
Proof.
  intros Ha Hb HA HB.
  apply startsWith_inv in HA; destruct HA as [ra ->].
  apply startsWith_inv in HB; destruct HB as [rb HB].
  revert b Hb HB; induction a as [|x a IH]; intros [|y b] Hb HB; simpl in *.
  - reflexivity.
  - inversion HB; subst y.
    apply orb_false_iff in Hb; destruct Hb as [Hy _]; discriminate.
  - inversion HB; subst x.
    apply orb_false_iff in Ha; destruct Ha as [Hx _]; discriminate.
  - inversion HB; subst y.
    apply orb_false_iff in Ha; destruct Ha as [_ Ha].
    apply orb_false_iff in Hb; destruct Hb as [_ Hb].
    f_equal; apply IH; assumption.
Qed.

(** X13.  One path, one player: when two upload commits with the same path
    both succeed -- on whatever stores, for whatever challenges -- and the
    ids of the two callers hold no ["/"], the two callers are the same
    player. *)
Theorem committed_path_has_one_owner (env1 env2 : Env) (w1 w2 : World)
    (req1 req2 : Request) (token1 token2 : string) (s1 s2 : Session.t) :
  carries req1 token1 -> lookupSession env1 w1 token1 = DbData (Some s1) ->
  carries req2 token2 -> lookupSession env2 w2 token2 = DbData (Some s2) ->
  occurs "/" (Session.player_id s1) = false ->
  occurs "/" (Session.player_id s2) = false ->
  succeeded (response (run (POST_commit env1 req1) w1)) = true ->
  succeeded (response (run (POST_commit env2 req2) w2)) = true ->
  pathOf req1 = pathOf req2 ->
  Session.player_id s1 = Session.player_id s2.
Proof.
  intros Hc1 Hs1 Hc2 Hs2 Hfree1 Hfree2 Hok1 Hok2 Hpath.
  assert (Hpre : forall env w req token s,
            carries req token -> lookupSession env w token = DbData (Some s) ->
            succeeded (response (run (POST_commit env req) w)) = true ->
            startsWith (pathOf req) (Session.player_id s ++ "/") = true).
  { intros env w req token s Hc Hs Hok.
    destruct (run (POST_commit env req) w) as [[o w'] log] eqn:Hrun.
    destruct o as [r|e]; [|discriminate].
    destruct (commit_success_inv env req w w' r log Hrun Hok)
      as (token' & id & s' & pc & (Hc' & _ & Hs' & _) & _ & _ & Hp & _).
    unfold carries in Hc, Hc'; rewrite Hc in Hc'; inversion Hc'; subst token'.
    rewrite Hs in Hs'; inversion Hs'; subst s'; exact Hp. }
  pose proof (Hpre _ _ _ _ _ Hc1 Hs1 Hok1) as H1.
  pose proof (Hpre _ _ _ _ _ Hc2 Hs2 Hok2) as H2.
  rewrite Hpath in H1.
  exact (prefix_owner_unique _ _ _ Hfree1 Hfree2 H1 H2).
Qed.

(** Alice commits the same path twice, for her challenge, on the sample store
    and on the store with the broken time block. *)
Lemma committed_path_has_one_owner_witness :
  Session.player_id Sample.aliceSession = Sample.alice.
Proof.
  apply (committed_path_has_one_owner Sample.env Sample.env
           Sample.store Scenario.brokenStore
           (Sample.commitRequest (Some "token-alice") Sample.challengeA
              (Sample.alice ++ "/clip.mp4") "video/mp4")
           (Sample.commitRequest (Some "token-alice") Sample.challengeA
              (Sample.alice ++ "/clip.mp4") "image/png")
           "token-alice" "token-alice" Sample.aliceSession Sample.aliceSession);
    reflexivity.
Defined.

(** X14.  For a mime that passes the check of the handlers, [extFromMime]
    gives a dot followed by at least one character and no ["/"]: the subtype
    when there is one, and [.jpg] or [.mp4], by the family, when the mime
    ends at its ["/"] (or has another ["/"] right after it). *)
Theorem extFromMime_accepted (mime : string) :
  badMime mime = false ->
  (exists c rest, extFromMime mime = String "." (String c rest)) /\
  occurs "/" (extFromMime mime) = false /\
  (subtype mime = Some "" ->
   extFromMime mime = if startsWith mime "image/" then ".jpg" else ".mp4").
Proof.
  unfold badMime; intros H.
  apply orb_false_iff in H; destruct H as [_ H].
  split; [|split; [apply extFromMime_free|]].
  - unfold extFromMime.
    destruct (startsWith mime "image/"); [|destruct (startsWith mime "video/")];
      simpl in H; try discriminate;
      unfold dotOr; destruct (nth_error _ 1) as [[|c rest]|]; simpl; eauto.
  - unfold extFromMime, subtype; intros ->.
    destruct (startsWith mime "image/"); [reflexivity|].
    destruct (startsWith mime "video/"); [reflexivity|discriminate].
Qed.

(** A mime that ends at its slash. *)
Lemma extFromMime_accepted_witness :
  extFromMime "video/" = ".mp4" /\ extFromMime "image/svg+xml" = ".svg+xml".
Proof.
  destruct (extFromMime_accepted "video/") as (_ & _ & Hfallback); [reflexivity|].
  split; [apply Hfallback|]; reflexivity.
Defined.

(** * The setup page *)

(** The error of a failed [fetchJson] is a value. *)
Lemma settle_error_defined (f : Fetched) (st : nat) (e : JsValue) :
  settle f = FetchFailed st e -> e <> JNull /\ e <> JUndefined.
Proof.
  destruct f as [|status js]; simpl.
  - intros H; inversion H; split; discriminate.
  - destruct (resOk status); simpl; [discriminate|].
    intros H; inversion H.
    destruct (member js "error"); simpl; split; discriminate.
Qed.

(** X15.  [fetchJson] gives [ok: true] exactly for a response with a status
    from 200 to 299, whatever its body; a failure always carries an error
    that is neither [null] nor [undefined]: the [error] of the body when
    there is one, REQUEST_FAILED when the body has none or does not parse,
    and NETWORK_ERROR, with status 0, when [fetch] itself fails. *)
Theorem fetchJson_result (f : Fetched) :
  (fetched (settle f) = true <->
   exists status js, f = Resolved status js /\ 200 <= status <= 299) /\
  (forall st e, settle f = FetchFailed st e -> e <> JNull /\ e <> JUndefined) /\
  (f = Rejected -> settle f = FetchFailed 0 (JString "NETWORK_ERROR")) /\
  (forall status js, f = Resolved status js -> resOk status = false ->
     settle f = FetchFailed status
                  match member js "error" with
                  | JUndefined | JNull => JString "REQUEST_FAILED"
                  | e => e
                  end).
Proof.
  split; [|split; [|split]].
  - destruct f as [|status js]; simpl.
    + split; [discriminate | intros (? & ? & ? & _); discriminate].
    + unfold resOk.
      destruct (Nat.leb 200 status) eqn:Hlo, (Nat.leb status 299) eqn:Hhi; simpl;
        (split;
         [ intros H; try discriminate; exists status, js;
           apply Nat.leb_le in Hlo, Hhi; auto
         | intros (st & js' & E & Hlo' & Hhi'); inversion E; subst;
           apply Nat.leb_le in Hlo', Hhi'; congruence ]).
  - intros st e; apply settle_error_defined.
  - intros ->; reflexivity.
  - intros status js -> Hbad; simpl; rewrite Hbad; simpl.
    destruct (member js "error"); reflexivity.
Qed.

(** X16.  What the client reads from a response of the three routes: the
    result of [fetchJson] is [ok: true] exactly when the payload says
    [ok: true], and a failure carries the status and the error code of the
    handler, never the REQUEST_FAILED stand-in. *)
Theorem client_reads_response (route : Route) (env : Env) (req : Request)
    (w : World) (r : Response) :
  response (run (POST route env req) w) = Responded r ->
  settle (served r) =
    if ok r then FetchOk (toJson r)
    else FetchFailed (status r) (JString (errorOf r)).
Proof.
  intros H.
  destruct route; unfold POST, POST_end, POST_commit, POST_reserve in H;
    unfold_handler; repeat (case_first; cbn in H);
    inversion H; reflexivity.
Qed.

(** The page reads Bob's failed attempt to end Alice's room. *)
Lemma client_reads_response_witness :
  settle (served NOT_ALLOWED) = FetchFailed 403 (JString "NOT_ALLOWED").
Proof.
  apply (client_reads_response EndRoom Sample.env
           (Sample.endRequest (Some "token-bob") "ABCD") Sample.store).
  reflexivity.
Defined.

(** X17.  [startGame] does nothing for a player who is not the owner, or
    without a room code: no request is sent and the page stays as it is. *)
Theorem startGame_needs_owner (net : Sent -> Fetched) (encodeURIComponent : string -> string)
    (code : string) (pg : Page) :
  isOwner pg = false \/ code = "" ->
  act (startGame net encodeURIComponent code) pg = (pg, []).
Proof.
  intros [H| ->]; unfold_client; rewrite ?H; simpl; [reflexivity|].
  destruct (isOwner pg); reflexivity.
Qed.

(** A guest presses the button. *)
Lemma startGame_needs_owner_witness :
  act (startGame Scenario.refusing Scenario.encodeCode "ABCD") Scenario.guestPage
  = (Scenario.guestPage, []).
Proof.
  apply startGame_needs_owner; left; reflexivity.
Defined.

(** X18.  [startGame], for the owner: the page goes to the room exactly when
    the rename (if a name is set) comes back ok and rounds and start each
    come back ok or with status 409; a 409 on rename is a failure like any
    other.  When it goes, the error is cleared; when it does not, the
    location is untouched and the error shown is the error of one of the
    answers that failed, never [null] or [undefined].  Either way [starting]
    is false at the end and name, role and rounds are as they were. *)
Theorem startGame_outcome (net : Sent -> Fetched) (encodeURIComponent : string -> string)
    (code : string) (pg : Page) :
  isOwner pg = true -> code <> "" ->
  let pg' := fst (act (startGame net encodeURIComponent code) pg) in
  starting pg' = false /\
  roomName pg' = roomName pg /\ isOwner pg' = isOwner pg /\ rounds pg' = rounds pg /\
  if startPasses net code pg
  then href pg' = Some ("/room/" ++ encodeURIComponent code) /\ error pg' = None
  else href pg' = href pg /\
       exists st e,
         error pg' = Some e /\ e <> JNull /\ e <> JUndefined /\
         In (FetchFailed st e)
            [renameAnswer net code pg; roundsAnswer net code pg; startAnswer net code].
Proof.
  intros Hown Hcode; cbv zeta.
  assert (Hne : isEmpty code = false).
  { unfold isEmpty; apply String.eqb_neq; exact Hcode. }
  unfold startPasses, renamePasses, renameAnswer, roundsAnswer, startAnswer.
  unfold_client; rewrite Hown, Hne; simpl.
  pose proof (settle_error_defined
                (net (renameRequest code (trim (roomName pg))))) as E1.
  pose proof (settle_error_defined (net (roundsRequest code (rounds pg)))) as E2.
  pose proof (settle_error_defined (net (startRequest code))) as E3.
  unfold renameRequest, roundsRequest, startRequest in *; simpl.
  destruct (isEmpty (trim (roomName pg))); simpl;
    destruct (settle (net (mkSent "/api/rooms/rename" _))) as [d1|st1 e1]; simpl;
    destruct (settle (net (mkSent "/api/rooms/rounds" _))) as [d2|st2 e2]; simpl;
    try destruct (Nat.eqb st2 409); simpl;
    destruct (settle (net (mkSent "/api/rooms/start" _))) as [d3|st3 e3]; simpl;
    try destruct (Nat.eqb st3 409); simpl;
    (split; [reflexivity|]); (split; [reflexivity|]);
    (split; [first [reflexivity | exact Hown | symmetry; exact Hown]|]);
    (split; [reflexivity|]);
    try (split; reflexivity);
    (split; [reflexivity|]);
    first [ exists st1, e1; destruct (E1 _ _ eq_refl); simpl; solve [auto 8]
          | exists st2, e2; destruct (E2 _ _ eq_refl); simpl; solve [auto 8]
          | exists st3, e3; destruct (E3 _ _ eq_refl); simpl; solve [auto 8] ].
Qed.

(** The owner starts a room that another click has started a moment ago:
    rounds and start come back with 409, and the page goes to the room.  And
    the owner starts a room whose name is a NO-BREAK SPACE, a SPACE and an
    IDEOGRAPHIC SPACE on a network that refuses every rename: the name is
    blank once trimmed, no rename is asked for, and the page goes to the
    room. *)
Lemma startGame_outcome_witness :
  let pg' := fst (act (startGame Scenario.alreadyStarted Scenario.encodeCode "ABCD")
                      Scenario.ownerPage) in
  let blank := fst (act (startGame Scenario.renameRefused Scenario.encodeCode "ABCD")
                        Scenario.blankPage) in
  (href pg' = Some "/room/ABCD" /\ error pg' = None /\ starting pg' = false) /\
  (href blank = Some "/room/ABCD" /\ error blank = None /\ starting blank = false).
Proof.
  cbv zeta.
  pose proof (startGame_outcome Scenario.alreadyStarted Scenario.encodeCode "ABCD"
                Scenario.ownerPage) as H.
  pose proof (startGame_outcome Scenario.renameRefused Scenario.encodeCode "ABCD"
                Scenario.blankPage) as B.
  cbv zeta in H, B.
  destruct H as (Hstarting & _ & _ & _ & Hgo); [reflexivity | discriminate |].
  destruct B as (Bstarting & _ & _ & _ & Bgo); [reflexivity | discriminate |].
  change (startPasses Scenario.alreadyStarted "ABCD" Scenario.ownerPage) with true in Hgo.
  change (startPasses Scenario.renameRefused "ABCD" Scenario.blankPage) with true in Bgo.
  destruct Hgo as [Hhref Herror].
  destruct Bgo as [Bhref Berror].
  rewrite Hhref, Herror, Hstarting, Bhref, Berror, Bstarting; repeat split.
Defined.

(** X19.  The requests of [startGame], for the owner, in the order they are
    sent: the rename, with the trimmed name, when the name is not blank;
    then rounds, only when the rename has not failed; then start, only when
    rounds has come back ok or with 409.  Nothing else is ever sent, and
    nothing is sent twice. *)
Theorem startGame_requests (net : Sent -> Fetched) (encodeURIComponent : string -> string)
    (code : string) (pg : Page) :
  isOwner pg = true -> code <> "" ->
  let name := trim (roomName pg) in
  snd (act (startGame net encodeURIComponent code) pg) =
    ((if isEmpty name then [] else [renameRequest code name])
     ++ (if renamePasses net code pg
         then roundsRequest code (rounds pg)
              :: (if tolerated (roundsAnswer net code pg) then [startRequest code] else [])
         else []))%list.
Proof.
  intros Hown Hcode; cbv zeta.
  assert (Hne : isEmpty code = false).
  { unfold isEmpty; apply String.eqb_neq; exact Hcode. }
  unfold renamePasses, renameAnswer, roundsAnswer.
  unfold_client; rewrite Hown, Hne; simpl.
  unfold renameRequest, roundsRequest, startRequest; simpl.
  destruct (isEmpty (trim (roomName pg))); simpl;
    repeat (match goal with
            | |- context [settle (net ?x)] => destruct (settle (net x))
            | |- context [Nat.eqb ?st 409] => destruct (Nat.eqb st 409)
            end; simpl);
    reflexivity.
Qed.

(** The owner starts the game on a network that refuses everything: the
    rename is sent, and nothing after it.  With a room name of white space
    only (a NO-BREAK SPACE, a SPACE and an IDEOGRAPHIC SPACE) no rename is
    sent: rounds and start are. *)
Lemma startGame_requests_witness :
  snd (act (startGame Scenario.refusing Scenario.encodeCode "ABCD") Scenario.ownerPage)
  = [renameRequest "ABCD" "Friday night"] /\
  snd (act (startGame Scenario.renameRefused Scenario.encodeCode "ABCD")
           Scenario.blankPage)
  = [roundsRequest "ABCD" 4; startRequest "ABCD"].
Proof.
  pose proof (startGame_requests Scenario.refusing Scenario.encodeCode "ABCD"
                Scenario.ownerPage) as H.
  pose proof (startGame_requests Scenario.renameRefused Scenario.encodeCode "ABCD"
                Scenario.blankPage) as B.
  cbv zeta in H, B.
  rewrite H, B; [split; reflexivity | reflexivity | discriminate
                | reflexivity | discriminate].
Defined.

(** X20.  [closeRoom] sends its one request only for the owner, with a room
    code, after the user has confirmed; otherwise nothing is sent and the
    page stays as it is.  The page goes to ["/"] exactly when the request
    comes back ok -- a 409 is a failure here -- and otherwise shows the
    error of the answer; [starting] is false at the end. *)
Theorem closeRoom_outcome (net : Sent -> Fetched) (confirm : bool)
    (code : string) (pg : Page) :
  let pg' := fst (act (closeRoom net confirm code) pg) in
  let sent := snd (act (closeRoom net confirm code) pg) in
  if isOwner pg && negb (isEmpty code) && confirm
  then sent = [closeRequest code] /\
       starting pg' = false /\
       roomName pg' = roomName pg /\ isOwner pg' = isOwner pg /\ rounds pg' = rounds pg /\
       match settle (net (closeRequest code)) with
       | FetchOk _ => href pg' = Some "/" /\ error pg' = None
       | FetchFailed _ e => href pg' = href pg /\ error pg' = Some e
       end
  else sent = [] /\ pg' = pg.
Proof.
  cbv zeta; unfold_client; unfold closeRequest; simpl.
  destruct (isOwner pg) eqn:Hown; simpl; [|split; reflexivity].
  destruct (isEmpty code); simpl; [split; reflexivity|].
  destruct confirm; simpl; [|split; reflexivity].
  destruct (settle (net _)) as [d|st e]; simpl; repeat split; auto.
Qed.

(** * End: lookups that fail *)

(** X21.  End, for a request with a token and a well-formed room code: a
    failure of the session, player or room lookup is answered with a 500
    that carries the message of the store; a session whose player row is
    gone is answered like an unknown token, with UNAUTHORIZED; but a failure
    of the membership lookup is not reported -- the caller is answered with
    NOT_ALLOWED, as if there were no membership.  Nothing is written in any
    of these cases. *)
Theorem end_lookup_failures (env : Env) (w : World) (req : Request)
    (token code : string) :
  carries req token -> namesRoom env req code ->
  let asked1 := [SelectSession token] in
  (forall m, lookupSession env w token = DbError m ->
     run (POST_end env req) w = (Responded (INTERNAL m), w, asked1)) /\
  (forall s, lookupSession env w token = DbData (Some s) ->
     let asked2 := [SelectSession token; SelectPlayer (Session.player_id s)] in
     (forall m, lookupPlayer env w (Session.player_id s) = DbError m ->
        run (POST_end env req) w = (Responded (INTERNAL m), w, asked2)) /\
     (lookupPlayer env w (Session.player_id s) = DbData None ->
        run (POST_end env req) w = (Responded UNAUTHORIZED, w, asked2)) /\
     (forall p, lookupPlayer env w (Session.player_id s) = DbData (Some p) ->
        let asked3 := [SelectSession token; SelectPlayer (Session.player_id s);
                       SelectRoom code] in
        (forall m, lookupRoom env w code = DbError m ->
           run (POST_end env req) w = (Responded (INTERNAL m), w, asked3)) /\
        (forall room m, lookupRoom env w code = DbData (Some room) ->
           Room.id room = Player.room_id p ->
           lookupMember env w (Room.id room) (Player.id p) = DbError m ->
           run (POST_end env req) w
           = (Responded NOT_ALLOWED, w,
              [SelectSession token; SelectPlayer (Session.player_id s); SelectRoom code;
               SelectMember (Room.id room) (Player.id p)])))).
Proof.
  unfold carries, namesRoom; intros Htok Hcode; cbv zeta.
  unfold POST_end; unfold_handler; rewrite Htok, Hcode; cbn.
  split; [intros m ->; reflexivity|].
  intros s ->; cbn.
  split; [intros m ->; reflexivity|].
  split; [intros ->; reflexivity|].
  intros p ->; cbn.
  split; [intros m ->; reflexivity|].
  intros room m -> Hroom Hmember; cbn.
  rewrite <- Hroom, String.eqb_refl; cbn.
  rewrite Hmember; reflexivity.
Qed.

(** Alice asks to end her room on a store that holds her session twice. *)
Lemma end_lookup_failures_witness :
  run (POST_end Sample.env (Sample.endRequest (Some "token-alice") "ABCD"))
      Scenario.doubledStore
  = (Responded (INTERNAL "JSON object requested, multiple (or no) rows returned"),
     Scenario.doubledStore, [SelectSession "token-alice"]).
Proof.
  pose proof (end_lookup_failures Sample.env Scenario.doubledStore
                (Sample.endRequest (Some "token-alice") "ABCD")
                "token-alice" "ABCD") as H.
  cbv zeta in H.
  destruct H as [Hsession _].
  - reflexivity.
  - reflexivity.
  - apply Hsession; reflexivity.
Defined.
